(** * Webhook reconciliation of the Kontent source plugin

    A shallow embedding of
    [packages/gatsby-source-kontent/src/webhookProcessor.ts] and the
    properties its specification states about it.

    The host (Gatsby) node store, the diagnostics channel and the remote
    fetcher are effects of the TypeScript code; here they are an explicit
    state ([World]) threaded through a small state-and-exception monad.
    Every [await] of the source is sequential, so [async] functions are
    plain monadic computations. *)

From Stdlib Require Import List String Ascii Bool Arith Lia.
Import ListNotations.
Local Open Scope string_scope.
Local Open Scope list_scope.

(** ** JavaScript values of the wire contract *)

(** A property of a JSON-derived object that the type declarations call a
    [T]: it can be missing ([Undefined]), JSON [null], or a value. *)
Inductive Nullable (A : Type) : Type :=
| Undefined
| Null
| Value (a : A).
Arguments Undefined {A}.
Arguments Null {A}.
Arguments Value {A} a.

(** String-typed properties of the event body. *)
Definition Field := Nullable string.

(** The values an expression built from [&&], [!==] and string properties
    can take. *)
Inductive JsValue : Type :=
| JUndefined
| JNull
| JBoolean (b : bool)
| JString (s : string).

Definition of_field (f : Field) : JsValue :=
  match f with
  | Undefined => JUndefined
  | Null => JNull
  | Value s => JString s
  end.

(** ToBoolean. *)
Definition truthy (v : JsValue) : bool :=
  match v with
  | JUndefined => false
  | JNull => false
  | JBoolean b => b
  | JString s => negb (s =? "")
  end.

(** [a && b]: the left operand when it is falsy, else the right one. *)
Definition js_and (a b : JsValue) : JsValue :=
  if truthy a then b else a.

(** [v !== null]. *)
Definition strict_ne_null (v : JsValue) : bool :=
  match v with
  | JNull => false
  | _ => true
  end.

(** [f === s] (and [f == s], and membership of [f] in an array of string
    literals) for a string literal [s]: an absent or null property equals
    no string under either comparison. *)
Definition field_is (f : Field) (s : string) : bool :=
  match f with
  | Value t => t =? s
  | _ => false
  end.

(** [arr.includes(f)] for an array of strings. *)
Definition includes (arr : list string) (f : Field) : bool :=
  existsb (field_is f) arr.

(** [a?.p]: [undefined] when [a] is [undefined] or [null]. *)
Definition opt_chain {A B : Type} (a : Nullable A) (p : A -> Nullable B)
  : Nullable B :=
  match a with
  | Value x => p x
  | _ => Undefined
  end.

(** ** The event body ([IWebhookDeliveryResponse]) *)

Record IWebhookItem : Type := {
  item_id : Field;
  item_language : Field
}.

Record IWebhookData : Type := {
  items : Nullable (list IWebhookItem)
}.

Record IWebhookMessage : Type := {
  api_name : Field;
  project_id : Field;
  operation : Field;
  message_type : Field
}.

Record IWebhookDeliveryResponse : Type := {
  data : Nullable IWebhookData;
  message : Nullable IWebhookMessage
}.

(** ** Plugin configuration ([CustomPluginOptions]) *)

Record CustomPluginOptions : Type := {
  projectId : string;
  languageCodenames : list string;
  includeRawContent : bool;
  includeTaxonomies : bool;
  includeTypes : bool
}.

(** ** Content items and nodes *)

Record KontentSystem : Type := {
  sys_id : string;
  sys_codename : string;
  sys_language : string;
  sys_type : string
}.

Record KontentItemElement : Type := {
  element_type : string;
  modular_content : list string
}.

(** A snapshot as the delivery client returns it.  [preferred_language] is
    the property [addPreferredLanguageProperty] sets. *)
Record KontentItem : Type := {
  system : KontentSystem;
  elements : list (string * KontentItemElement);
  preferred_language : option string
}.

(** A node of the host store.  Nodes of other kinds (taxonomies, types)
    live in the same store, so the item properties are optional. *)
Record Node : Type := {
  id : string;
  internal_type : string;
  node_system : option KontentSystem;
  node_elements : option (list (string * KontentItemElement));
  node_preferred_language : option string
}.

(** ** Diagnostics and the observable trace *)

Inductive Diag : Type :=
| NotFromKontent
| NotHandledByPlugin
| Handling (op api : Field)
| MoreThanOneItem (n : nat)
| LanguageNotConfigured (language : Field)
| VariantNotFoundForUpdate (itemId : Field) (lang : string)
| NotSupportedYet
| EnvelopeDump (webhook : IWebhookDeliveryResponse).

Inductive Event : Type :=
| Verbose (d : Diag)
| Warn (d : Diag)
| Fetched (itemId : Field) (lang : string)
| Created (n : Node)
| Deleted (nodeId : string)
| Touched (nodeId : string).

(** A node-store mutation or a touch, as opposed to a diagnostic or a
    remote read. *)
Definition is_mutation (e : Event) : bool :=
  match e with
  | Created _ | Deleted _ | Touched _ => true
  | _ => false
  end.

(** ** The host state and the monad *)

Record World : Type := {
  nodes : list Node;
  trace : list Event
}.

(** What is thrown: a TypeError of the language, or the reason a
    promise of a collaborator was rejected with. *)
Inductive JsError : Type :=
| TypeError (reading : string)
| RemoteFailure (reason : string).

Inductive Outcome (A : Type) : Type :=
| Returned (a : A) (w : World)
| Thrown (e : JsError) (w : World).
Arguments Returned {A} a w.
Arguments Thrown {A} e w.

Definition M (A : Type) : Type := World -> Outcome A.

Definition ret {A : Type} (a : A) : M A := fun w => Returned a w.

Definition bind {A B : Type} (m : M A) (k : A -> M B) : M B :=
  fun w =>
    match m w with
    | Returned a w' => k a w'
    | Thrown e w' => Thrown e w'
    end.

Definition throw {A : Type} (e : JsError) : M A := fun w => Thrown e w.

Notation "x <- m ;; k" := (bind m (fun x => k))
  (at level 61, m at next level, right associativity).
Notation "m ;;; k" := (bind m (fun _ => k))
  (at level 61, right associativity).

Definition emit (e : Event) : M unit :=
  fun w => Returned tt {| nodes := nodes w; trace := trace w ++ [e] |}.

Definition final_world {A : Type} (o : Outcome A) : World :=
  match o with
  | Returned _ w => w
  | Thrown _ w => w
  end.

(** [for (const x of xs) { body }] where the body pushes onto one local
    array: the pushed values, in order. *)
Fixpoint for_of {A B : Type} (xs : list A) (body : A -> M (list B))
  : M (list B) :=
  match xs with
  | [] => ret []
  | x :: rest =>
      pushed <- body x ;;
      more <- for_of rest body ;;
      ret (pushed ++ more)
  end.

(** ** The node store of the host

    Gatsby keeps nodes in an insertion-ordered map keyed by id:
    [createNode] replaces the node stored under the same id in place, or
    appends; [deleteNode] removes by id and does nothing when the id is
    absent; [touchNode] only resets a staleness marker, which is visible
    here as a [Touched] event. *)

Fixpoint store_put (n : Node) (s : list Node) : list Node :=
  match s with
  | [] => [n]
  | m :: rest =>
      if id m =? id n then n :: rest else m :: store_put n rest
  end.

Definition store_remove (i : string) (s : list Node) : list Node :=
  filter (fun m => negb (id m =? i)) s.

Definition store_get (i : string) (s : list Node) : option Node :=
  find (fun m => id m =? i) s.

Definition createNode (n : Node) : M unit :=
  fun w => Returned tt {| nodes := store_put n (nodes w);
                          trace := trace w ++ [Created n] |}.

Definition deleteNode (n : Node) : M unit :=
  fun w => Returned tt {| nodes := store_remove (id n) (nodes w);
                          trace := trace w ++ [Deleted (id n)] |}.

Definition touchNode (nodeId : string) : M unit := emit (Touched nodeId).

Definition getNode (i : string) : M (option Node) :=
  fun w => Returned (store_get i (nodes w)) w.

Definition getNodes : M (list Node) :=
  fun w => Returned (nodes w) w.

Definition getNodesByType (ty : string) : M (list Node) :=
  fun w => Returned (filter (fun m => internal_type m =? ty) (nodes w)) w.

Definition verbose (d : Diag) : M unit := emit (Verbose d).
Definition warn (d : Diag) : M unit := emit (Warn d).

(** ** The reconciler *)

(** *** Collaborators that are not part of [webhookProcessor.ts] *)

(** The result of [client.loadKontentItem]: the snapshot, or nothing
    when no content resolves for the requested language, and the
    modular content map in the enumeration order of its keys. *)
Definition LoadResult : Type :=
  (option KontentItem * list (string * KontentItem))%type.

(** What the promise of [client.loadKontentItem] settles to: it resolves
    with a result, or it is rejected (the request failed). *)
Inductive Settled : Type :=
| Resolved (result : LoadResult)
| Rejected (reason : JsError).

(** The promise resolved and no content resolves for the language. *)
Definition is_absent (settled : Settled) : bool :=
  match settled with
  | Resolved (None, _) => true
  | _ => false
  end.

(** The promise resolved with a snapshot. *)
Definition has_snapshot (settled : Settled) : bool :=
  match settled with
  | Resolved (Some _, _) => true
  | _ => false
  end.

Definition is_rejected (settled : Settled) : bool :=
  match settled with
  | Rejected _ => true
  | Resolved _ => false
  end.

(** What the reconciler imports: the delivery client (the remote state),
    the id derivation of the host, and the names of [naming.ts]. *)
Record Collaborators : Type := {
  loadKontentItem :
    Field -> string -> CustomPluginOptions -> bool -> Settled;
  createNodeId : string -> string;
  getKontentItemNodeStringForId : Field -> Field -> string;
  getKontentItemNodeTypeName : string -> string;
  getKontentItemInterfaceName : string;
  getKontentTaxonomyTypeName : string;
  getKontentTypeTypeName : string;
  RICH_TEXT_ELEMENT_TYPE_NAME : string
}.

Section Reconciler.

Variable env : Collaborators.

(** [await client.loadKontentItem(...)]: the request is issued, and the
    awaited promise either yields its result or throws its rejection
    into the [async] caller. *)
Definition client_loadKontentItem (itemId : Field) (lang : string)
    (config : CustomPluginOptions) (wait : bool) : M LoadResult :=
  emit (Fetched itemId lang) ;;;
  match loadKontentItem env itemId lang config wait with
  | Resolved result => ret result
  | Rejected reason => throw reason
  end.

(** The deterministic node id of (item id, requested language). *)
Definition node_id_for (itemId : Field) (lang : string) : string :=
  createNodeId env (getKontentItemNodeStringForId env itemId (Value lang)).

(** *** Helpers of [sourceNodes.items.ts] *)

(** Modelled from the spec: [addPreferredLanguageProperty] is defined in
    [sourceNodes.items.ts], which is not among the sources.  Each node
    carries a preferred-language marker recording which
    requested-language slot it occupies. *)
Definition addPreferredLanguageProperty (item : KontentItem)
    (language : string) : KontentItem :=
  {| system := system item;
     elements := elements item;
     preferred_language := Some language |}.

(** Modelled from the spec: [alterRichTextElements] is defined in
    [sourceNodes.items.ts], which is not among the sources.  The
    rich-text rewriting is outside the reconciler; the element type and
    the referenced codenames, which the reconciler reads back from
    stored nodes, are kept. *)
Definition alterRichTextElements (item : KontentItem) : KontentItem :=
  item.

Definition of_option (o : option string) : Field :=
  match o with
  | Some s => Value s
  | None => Undefined
  end.

(** Modelled from the spec: [getKontentItemLanguageVariantArtifact] is
    defined in [sourceNodes.items.ts], which is not among the sources.
    The identity of a local node is deterministic and derived from the
    item id and the requested language, not from the language the
    snapshot resolved to. *)
Definition getKontentItemLanguageVariantArtifact (kontentItem : KontentItem)
    (includeRawContent : bool) : Node :=
  {| id := createNodeId env
             (getKontentItemNodeStringForId env
                (Value (sys_id (system kontentItem)))
                (of_option (preferred_language kontentItem)));
     internal_type := getKontentItemNodeTypeName env
                        (sys_type (system kontentItem));
     node_system := Some (system kontentItem);
     node_elements := Some (elements kontentItem);
     node_preferred_language := preferred_language kontentItem |}.

(** *** [webhookProcessor.ts] *)

Definition parseKontentWebhookBody
    (webhookBody : Nullable IWebhookDeliveryResponse)
  : Nullable IWebhookDeliveryResponse :=
  let parsedBody := webhookBody in
  let every :=
    match opt_chain (opt_chain parsedBody data) items with
    | Value l =>
        JBoolean
          (forallb
             (fun item =>
                truthy (js_and (of_field (item_language item))
                               (of_field (item_id item))))
             l)
    | _ => JUndefined
    end in
  let isCorrectStructure :=
    js_and
      (js_and
         (js_and every
                 (of_field (opt_chain (opt_chain parsedBody message) api_name)))
         (of_field (opt_chain (opt_chain parsedBody message) project_id)))
      (JBoolean
         (strict_ne_null
            (of_field (opt_chain (opt_chain parsedBody message) operation))))
  in
  if truthy isCorrectStructure then parsedBody else Null.

Definition isKontentSupportedWebhook (message : IWebhookMessage)
    (projectId : string) : bool :=
  let isCorrectProject := field_is (project_id message) projectId in
  let isPreviewWebhook :=
    field_is (api_name message) "delivery_preview"
    && includes ["upsert"; "archive"; "restore"] (operation message) in
  let isBuildWebhook :=
    field_is (api_name message) "delivery_production"
    && includes ["publish"; "unpublish"] (operation message) in
  let isCorrectMessageType :=
    field_is (message_type message) "content_item_variant" in
  isCorrectProject
  && (isPreviewWebhook || isBuildWebhook)
  && isCorrectMessageType.

Definition createNodeFromRawKontentItem (rawKontentItem : KontentItem)
    (includeRawContent : bool) (preferredLanguage : string) : M Node :=
  let rawKontentItem :=
    addPreferredLanguageProperty rawKontentItem preferredLanguage in
  let rawKontentItem := alterRichTextElements rawKontentItem in
  let nodeData :=
    getKontentItemLanguageVariantArtifact rawKontentItem includeRawContent in
  createNode nodeData ;;;
  ret nodeData.

(** Components have substring 01 in their id starting at position 14. *)
Definition isContentComponent (data : Node) : M bool :=
  match node_system data with
  | None => throw (TypeError "substring")
  | Some sys => ret (substring 14 2 (sys_id sys) =? "01")
  end.

(** [(api.webhookBody as IWebhookDeliveryResponse)?.data.items[0]] *)
Definition first_item (webhookBody : Nullable IWebhookDeliveryResponse)
  : M (option IWebhookItem) :=
  match webhookBody with
  | Value body =>
      match data body with
      | Value d =>
          match items d with
          | Value l => ret (nth_error l 0)
          | _ => throw (TypeError "0")
          end
      | _ => throw (TypeError "items")
      end
  | _ => ret None
  end.

(** The nodes of a snapshot and of its modular content map, created in
    the requested-language slot [lang]; the ids in creation order. *)
Definition materialize (kontentItem : KontentItem)
    (modularKontent : list (string * KontentItem))
    (pluginConfig : CustomPluginOptions) (lang : string)
  : M (list string) :=
  nodeData <- createNodeFromRawKontentItem
                kontentItem (includeRawContent pluginConfig) lang ;;
  more <- for_of modularKontent
            (fun entry =>
               nodeData <- createNodeFromRawKontentItem
                             (snd entry) (includeRawContent pluginConfig)
                             lang ;;
               ret [id nodeData]) ;;
  ret (id nodeData :: more).

(** One iteration of the loop of [handleUpsertItem]. *)
Definition upsert_language (itemInfo : IWebhookItem)
    (pluginConfig : CustomPluginOptions) (lang : string)
  : M (list string) :=
  loaded <- client_loadKontentItem (item_id itemInfo) lang pluginConfig true ;;
  match fst loaded with
  | None =>
      verbose (VariantNotFoundForUpdate (item_id itemInfo) lang) ;;;
      ret []
  | Some kontentItem =>
      materialize kontentItem (snd loaded) pluginConfig lang
  end.

Definition handleUpsertItem
    (webhookBody : Nullable IWebhookDeliveryResponse)
    (pluginConfig : CustomPluginOptions) : M (list string) :=
  itemInfo <- first_item webhookBody ;;
  match itemInfo with
  | None => throw (TypeError "language")
  | Some itemInfo =>
      if negb (includes (languageCodenames pluginConfig)
                        (item_language itemInfo))
      then
        verbose (LanguageNotConfigured (item_language itemInfo)) ;;;
        ret []
      else
        for_of (languageCodenames pluginConfig)
               (upsert_language itemInfo pluginConfig)
  end.

(** The codenames referenced by the rich-text elements of a node. *)
Definition modular_codenames (els : list (string * KontentItemElement))
  : list string :=
  List.concat
    (map modular_content
         (filter
            (fun element =>
               element_type element =? RICH_TEXT_ELEMENT_TYPE_NAME env)
            (map snd els))).

(** The predicate of [kontentItemNodes.find] for one codename. *)
Definition is_candidate (node : Node) (modularItemCodename : string)
    (candidateNode : Node) : bool :=
  match node_system candidateNode with
  | None => false
  | Some sys =>
      (sys_codename sys =? modularItemCodename)
      && match node_preferred_language candidateNode,
               node_preferred_language node with
         | Some a, Some b => a =? b
         | None, None => true
         | _, _ => false
         end
  end.

(** The body of [modularItemCodenames.forEach]. *)
Definition remove_component (kontentItemNodes : list Node) (node : Node)
    (modularItemCodename : string) : M (list string) :=
  match find (is_candidate node modularItemCodename) kontentItemNodes with
  | None => ret []
  | Some candidate =>
      component <- isContentComponent candidate ;;
      if component
      then deleteNode candidate ;;; ret [id candidate]
      else ret []
  end.

(** One iteration of the loop of [handleDeleteItem]. *)
Definition delete_language (itemInfo : IWebhookItem)
    (pluginConfig : CustomPluginOptions) (lang : string)
  : M (list string) :=
  loaded <- client_loadKontentItem (item_id itemInfo) lang pluginConfig true ;;
  match fst loaded with
  | None =>
      let idString :=
        getKontentItemNodeStringForId env (item_id itemInfo) (Value lang) in
      node <- getNode (createNodeId env idString) ;;
      allNodes <- getNodes ;;
      let kontentItemNodes :=
        filter
          (fun n => prefix (getKontentItemInterfaceName env) (internal_type n))
          allNodes in
      match node with
      | None => throw (TypeError "elements")
      | Some node =>
          match node_elements node with
          | None => throw (TypeError "Object.values")
          | Some els =>
              let modularItemCodenames := modular_codenames els in
              removed <- for_of modularItemCodenames
                           (remove_component kontentItemNodes node) ;;
              deleteNode node ;;;
              ret (removed ++ [id node])
          end
      end
  | Some kontentItem =>
      materialize kontentItem (snd loaded) pluginConfig lang
  end.

Definition handleDeleteItem
    (webhookBody : Nullable IWebhookDeliveryResponse)
    (pluginConfig : CustomPluginOptions) : M (list string) :=
  itemInfo <- first_item webhookBody ;;
  match itemInfo with
  | None => throw (TypeError "language")
  | Some itemInfo =>
      if negb (includes (languageCodenames pluginConfig)
                        (item_language itemInfo))
      then
        verbose (LanguageNotConfigured (item_language itemInfo)) ;;;
        ret []
      else
        for_of (languageCodenames pluginConfig)
               (delete_language itemInfo pluginConfig)
  end.

(** [for (const x of xs) { body }] for a body that pushes nothing. *)
Definition for_each {A : Type} (xs : list A) (body : A -> M unit) : M unit :=
  for_of xs (fun x => body x ;;; ret (@nil unit)) ;;; ret tt.

(** The touch stage at the end of [handleIncomingWebhook], for the
    processed ids it reads. *)
Definition touch_propagation (pluginConfig : CustomPluginOptions)
    (itemTypes : list string) (processedItemIds : list string) : M unit :=
  for_each itemTypes
    (fun itemType =>
       itemsToTouch <- getNodesByType itemType ;;
       for_each
         (filter (fun item => existsb (String.eqb (id item)) processedItemIds)
                 itemsToTouch)
         (fun itemToTouch => touchNode (id itemToTouch))) ;;;
  (if includeTaxonomies pluginConfig
   then
     taxonomies <- getNodesByType (getKontentTaxonomyTypeName env) ;;
     for_each taxonomies (fun taxonomy => touchNode (id taxonomy))
   else ret tt) ;;;
  (if includeTypes pluginConfig
   then
     types <- getNodesByType (getKontentTypeTypeName env) ;;
     for_each types (fun type => touchNode (id type))
   else ret tt).

(** [processedItemIds.concat(processedIds)]: a new array; neither
    operand changes. *)
Definition Array_concat (a b : list string) : list string := a ++ b.

(** [webhook.data.items.length] *)
Definition items_length (webhook : IWebhookDeliveryResponse) : M nat :=
  match data webhook with
  | Value d =>
      match items d with
      | Value l => ret (List.length l)
      | _ => throw (TypeError "length")
      end
  | _ => throw (TypeError "items")
  end.

Definition handleIncomingWebhook
    (webhookBody : Nullable IWebhookDeliveryResponse)
    (pluginConfig : CustomPluginOptions)
    (itemTypes : list string) : M unit :=
  match parseKontentWebhookBody webhookBody with
  | Null => verbose NotFromKontent
  | Undefined => throw (TypeError "message")
  | Value webhook =>
      match message webhook with
      | Value message =>
          if negb (isKontentSupportedWebhook message (projectId pluginConfig))
          then verbose NotHandledByPlugin
          else
            verbose (Handling (operation message) (api_name message)) ;;;
            n <- items_length webhook ;;
            (if (1 <? n)%nat then warn (MoreThanOneItem n) else ret tt) ;;;
            let processedItemIds : list string := [] in
            if field_is (api_name message) "delivery_preview" then
              (if field_is (operation message) "upsert"
                  || field_is (operation message) "restore"
               then
                 processedIds <- handleUpsertItem webhookBody pluginConfig ;;
                 let _ := Array_concat processedItemIds processedIds in
                 ret tt
               else ret tt) ;;;
              (if field_is (operation message) "archive"
               then
                 processedIds <- handleDeleteItem webhookBody pluginConfig ;;
                 let _ := Array_concat processedItemIds processedIds in
                 ret tt
               else ret tt) ;;;
              touch_propagation pluginConfig itemTypes processedItemIds
            else if field_is (api_name message) "delivery_production" then
              (if field_is (operation message) "publish"
               then
                 processedIds <- handleUpsertItem webhookBody pluginConfig ;;
                 let _ := Array_concat processedItemIds processedIds in
                 ret tt
               else ret tt) ;;;
              (if field_is (operation message) "unpublish"
               then
                 processedIds <- handleDeleteItem webhookBody pluginConfig ;;
                 let _ := Array_concat processedItemIds processedIds in
                 ret tt
               else ret tt) ;;;
              touch_propagation pluginConfig itemTypes processedItemIds
            else
              verbose NotSupportedYet ;;;
              verbose (EnvelopeDump webhook)
      | _ => throw (TypeError "project_id")
      end
  end.

End Reconciler.

(** ** What the handlers compute, as pure functions of the remote state

    These restate the effect of the loops on the store and are related to
    the monadic code by the lemmas below. *)

Section Effects.

Variable env : Collaborators.

(** The node [createNodeFromRawKontentItem] creates for a raw item. *)
Definition node_of (pluginConfig : CustomPluginOptions) (lang : string)
    (rawKontentItem : KontentItem) : Node :=
  getKontentItemLanguageVariantArtifact env
    (alterRichTextElements
       (addPreferredLanguageProperty rawKontentItem lang))
    (includeRawContent pluginConfig).

(** The nodes of a snapshot and of its modular content map. *)
Definition materialized_nodes (pluginConfig : CustomPluginOptions)
    (lang : string) (kontentItem : KontentItem)
    (modularKontent : list (string * KontentItem)) : list Node :=
  node_of pluginConfig lang kontentItem
  :: map (fun entry => node_of pluginConfig lang (snd entry)) modularKontent.

(** The nodes an upsert of [itemId] creates over the configured languages,
    in creation order, up to the first language whose fetch is
    rejected. *)
Fixpoint upserted_nodes (pluginConfig : CustomPluginOptions)
    (itemId : Field) (langs : list string) : list Node :=
  match langs with
  | [] => []
  | lang :: rest =>
      match loadKontentItem env itemId lang pluginConfig true with
      | Resolved (Some kontentItem, modularKontent) =>
          materialized_nodes pluginConfig lang kontentItem modularKontent
          ++ upserted_nodes pluginConfig itemId rest
      | Resolved (None, _) => upserted_nodes pluginConfig itemId rest
      | Rejected _ => []
      end
  end.

(** The events of an upsert over the configured languages, up to the
    fetch that is rejected. *)
Fixpoint upsert_events (pluginConfig : CustomPluginOptions)
    (itemId : Field) (langs : list string) : list Event :=
  match langs with
  | [] => []
  | lang :: rest =>
      Fetched itemId lang
      :: match loadKontentItem env itemId lang pluginConfig true with
         | Resolved (Some kontentItem, modularKontent) =>
             map Created
                 (materialized_nodes pluginConfig lang kontentItem
                                     modularKontent)
             ++ upsert_events pluginConfig itemId rest
         | Resolved (None, _) =>
             Verbose (VariantNotFoundForUpdate itemId lang)
             :: upsert_events pluginConfig itemId rest
         | Rejected _ => []
         end
  end.

(** The rejection of the first language, in order, whose fetch is
    rejected. *)
Fixpoint first_rejection (pluginConfig : CustomPluginOptions)
    (itemId : Field) (langs : list string) : option JsError :=
  match langs with
  | [] => None
  | lang :: rest =>
      match loadKontentItem env itemId lang pluginConfig true with
      | Rejected reason => Some reason
      | Resolved _ => first_rejection pluginConfig itemId rest
      end
  end.

(** The stored item nodes among which components are looked up. *)
Definition kontent_item_nodes (s : list Node) : list Node :=
  filter (fun n => prefix (getKontentItemInterfaceName env) (internal_type n))
         s.

(** The component marker of a stored node: characters 14 and 15 of its
    item id are 01. *)
Definition has_component_marker (n : Node) : bool :=
  match node_system n with
  | Some sys => substring 14 2 (sys_id sys) =? "01"
  | None => false
  end.

(** [x] is a stored item node that carries the codename [codename] in
    the requested-language slot of [node]. *)
Definition matches_reference (node : Node) (codename : string) (x : Node)
  : Prop :=
  prefix (getKontentItemInterfaceName env) (internal_type x) = true
  /\ exists sys,
       node_system x = Some sys
       /\ sys_codename sys = codename
       /\ node_preferred_language x = node_preferred_language node.

(** The components the cascade removes for a node: for each referenced
    codename the first matching node of [kontentItemNodes], when it
    carries the component marker. *)
Definition cascade_targets (kontentItemNodes : list Node) (node : Node)
    (codenames : list string) : list Node :=
  flat_map
    (fun codename =>
       match find (is_candidate node codename) kontentItemNodes with
       | Some candidate =>
           if has_component_marker candidate then [candidate] else []
       | None => []
       end)
    codenames.

(** The touches of the touch stage on a store [s]. *)
Definition item_touches (itemTypes : list string)
    (processedItemIds : list string) (s : list Node) : list Event :=
  flat_map
    (fun itemType =>
       map (fun item => Touched (id item))
           (filter
              (fun item => existsb (String.eqb (id item)) processedItemIds)
              (filter (fun m => internal_type m =? itemType) s)))
    itemTypes.

Definition touches_of_type (ty : string) (s : list Node) : list Event :=
  map (fun n => Touched (id n)) (filter (fun m => internal_type m =? ty) s).

End Effects.

(** A computation ends by returning, unless a rejection was met. *)
Definition finish {A : Type} (rejection : option JsError) (a : A)
    (w : World) : Outcome A :=
  match rejection with
  | None => Returned a w
  | Some reason => Thrown reason w
  end.

(** The value a computation returned, or what it threw. *)
Definition result_of {A : Type} (o : Outcome A) : A + JsError :=
  match o with
  | Returned a _ => inl a
  | Thrown e _ => inr e
  end.

Definition store_put_all (ns : list Node) (s : list Node) : list Node :=
  fold_left (fun acc n => store_put n acc) ns s.

Definition store_remove_all (ids : list string) (s : list Node) : list Node :=
  fold_left (fun acc i => store_remove i acc) ids s.

(** The callback of [every] in the envelope check. *)
Definition item_well_formed (item : IWebhookItem) : bool :=
  truthy (js_and (of_field (item_language item)) (of_field (item_id item))).

(** The items of an event body, when it has any. *)
Definition body_items (webhookBody : Nullable IWebhookDeliveryResponse)
  : list IWebhookItem :=
  match opt_chain (opt_chain webhookBody data) items with
  | Value l => l
  | _ => []
  end.

(** The operation of an event body is absent: missing or null. *)
Definition operation_absent (webhookBody : Nullable IWebhookDeliveryResponse)
  : Prop :=
  match opt_chain (opt_chain webhookBody message) operation with
  | Value _ => False
  | _ => True
  end.

(** The three ways a payload is malformed. *)
Definition malformed (webhookBody : Nullable IWebhookDeliveryResponse)
  : Prop :=
  (exists item, In item (body_items webhookBody)
                /\ truthy (of_field (item_id item)) = false)
  \/ (exists item, In item (body_items webhookBody)
                   /\ truthy (of_field (item_language item)) = false)
  \/ operation_absent webhookBody.

(** No event of a list is a node-store mutation or a touch. *)
Definition no_mutation (events : list Event) : Prop :=
  forall e, In e events -> is_mutation e = false.

(** ** Vocabulary for the further properties *)

(** Every event a computation adds to the trace satisfies [P], whether
    the computation returns or throws; the trace it started from is
    kept as a prefix. *)
Definition emits_only {A : Type} (P : Event -> Prop) (m : M A) : Prop :=
  forall w, exists added,
    trace (final_world (m w)) = trace w ++ added /\ Forall P added.

(** The events of the upsert handler. *)
Definition upsert_event (e : Event) : Prop :=
  match e with
  | Verbose (LanguageNotConfigured _) => True
  | Verbose (VariantNotFoundForUpdate _ _) => True
  | Fetched _ _ => True
  | Created _ => True
  | _ => False
  end.

(** The events of the delete handler. *)
Definition delete_event (e : Event) : Prop :=
  match e with
  | Verbose (LanguageNotConfigured _) => True
  | Fetched _ _ => True
  | Created _ => True
  | Deleted _ => True
  | _ => False
  end.

(** The diagnostics of the final [else] of [handleIncomingWebhook]. *)
Definition unsupported_dump (e : Event) : Prop :=
  match e with
  | Verbose NotSupportedYet => True
  | Verbose (EnvelopeDump _) => True
  | _ => False
  end.

(** The ids [touchNode] was called with, in order. *)
Definition touched_ids (events : list Event) : list string :=
  flat_map (fun e => match e with Touched i => [i] | _ => [] end) events.

Definition is_touch (e : Event) : Prop :=
  match e with
  | Touched _ => True
  | _ => False
  end.

(** The conditions under which [handleIncomingWebhook] calls
    [handleUpsertItem], and those under which it calls
    [handleDeleteItem]. *)
Definition upsert_classified (message : IWebhookMessage) : bool :=
  (field_is (api_name message) "delivery_preview"
   && (field_is (operation message) "upsert"
       || field_is (operation message) "restore"))
  || (field_is (api_name message) "delivery_production"
      && field_is (operation message) "publish").

Definition delete_classified (message : IWebhookMessage) : bool :=
  (field_is (api_name message) "delivery_preview"
   && field_is (operation message) "archive")
  || (field_is (api_name message) "delivery_production"
      && field_is (operation message) "unpublish").

(** The diagnostics [handleIncomingWebhook] emits between the supported
    check and the dispatch. *)
Definition announce (webhook : IWebhookDeliveryResponse)
    (message : IWebhookMessage) : M unit :=
  verbose (Handling (operation message) (api_name message)) ;;;
  n <- items_length webhook ;;
  (if (1 <? n)%nat then warn (MoreThanOneItem n) else ret tt).

(** The store without the nodes whose id is in [ids]. *)
Definition store_without (ids : list string) (s : list Node) : list Node :=
  filter (fun n => negb (existsb (String.eqb (id n)) ids)) s.

(** ** A concrete project *)

Module Scenario.

Definition article_id : string := "6a3a2f5e-8c1b-4d7e-9f10-2b4c6d8e0a12".
Definition teaser_id : string := "3f9c1d2a-7b4e-01c8-a5d6-0e1f2a3b4c5d".
Definition author_id : string := "9d8c7b6a-5e4f-4a3b-8c2d-1e0f9a8b7c6d".

Definition interpolate (f : Field) : string :=
  match f with
  | Undefined => "undefined"
  | Null => "null"
  | Value s => s
  end.

Definition body_element : KontentItemElement :=
  {| element_type := "rich_text"; modular_content := ["teaser"; "author"] |}.

Definition title_element : KontentItemElement :=
  {| element_type := "text"; modular_content := [] |}.

Definition article (language : string) : KontentItem :=
  {| system := {| sys_id := article_id; sys_codename := "article";
                  sys_language := language; sys_type := "article" |};
     elements := [("title", title_element); ("body", body_element)];
     preferred_language := None |}.

Definition teaser (language : string) : KontentItem :=
  {| system := {| sys_id := teaser_id; sys_codename := "teaser";
                  sys_language := language; sys_type := "teaser_block" |};
     elements := [("text", title_element)];
     preferred_language := None |}.

Definition author (language : string) : KontentItem :=
  {| system := {| sys_id := author_id; sys_codename := "author";
                  sys_language := language; sys_type := "person" |};
     elements := [("name", title_element)];
     preferred_language := None |}.

(** Remote state in which the article resolves in English and, through
    the fallback chain, in Czech. *)
Definition remote_published (itemId : Field) (lang : string)
    (config : CustomPluginOptions) (wait : bool) : Settled :=
  if field_is itemId article_id && ((lang =? "en") || (lang =? "cs"))
  then Resolved (Some (article "en"),
                 [("teaser", teaser "en"); ("author", author "en")])
  else Resolved (None, []).

(** Remote state in which nothing resolves. *)
Definition remote_gone (itemId : Field) (lang : string)
    (config : CustomPluginOptions) (wait : bool) : Settled :=
  Resolved (None, []).

(** Remote state in which the request for English fails and Czech
    resolves through the fallback chain. *)
Definition remote_english_down (itemId : Field) (lang : string)
    (config : CustomPluginOptions) (wait : bool) : Settled :=
  if lang =? "en" then Rejected (RemoteFailure "503")
  else remote_published itemId lang config wait.

Definition project (remote : Field -> string -> CustomPluginOptions -> bool
                             -> Settled) : Collaborators :=
  {| loadKontentItem := remote;
     createNodeId := fun s => ("node-" ++ s)%string;
     getKontentItemNodeStringForId :=
       fun itemId lang =>
         ("kontent-item-" ++ interpolate lang ++ "-" ++ interpolate itemId)%string;
     getKontentItemNodeTypeName := fun t => ("kontent_item_" ++ t)%string;
     getKontentItemInterfaceName := "kontent_item";
     getKontentTaxonomyTypeName := "kontent_taxonomy";
     getKontentTypeTypeName := "kontent_type";
     RICH_TEXT_ELEMENT_TYPE_NAME := "rich_text" |}.

Definition config (languages : list string) : CustomPluginOptions :=
  {| projectId := "e1f2a3b4";
     languageCodenames := languages;
     includeRawContent := false;
     includeTaxonomies := false;
     includeTypes := false |}.

Definition item_types : list string :=
  ["kontent_item_article"; "kontent_item_teaser_block";
   "kontent_item_person"].

Definition envelope (api : string) (op : Field)
    (batch : list IWebhookItem) : IWebhookDeliveryResponse :=
  {| data := Value {| items := Value batch |};
     message := Value {| api_name := Value api;
                         project_id := Value "e1f2a3b4";
                         operation := op;
                         message_type := Value "content_item_variant" |} |}.

Definition event (api : string) (op : Field)
    (batch : list IWebhookItem) : Nullable IWebhookDeliveryResponse :=
  Value (envelope api op batch).

Definition variant (language : string) : IWebhookItem :=
  {| item_id := Value article_id; item_language := Value language |}.

Definition empty_world : World := {| nodes := []; trace := [] |}.

(** A second component that carries the codename of [teaser]. *)
Definition teaser_copy_id : string := "7c2e9a41-5d3b-01f6-b8a0-4e6f8a0c2d4e".

Definition teaser_copy (language : string) : KontentItem :=
  {| system := {| sys_id := teaser_copy_id; sys_codename := "teaser";
                  sys_language := language; sys_type := "teaser_block" |};
     elements := [("text", title_element)];
     preferred_language := None |}.

(** The node stored for a raw item in the slot of [lang]. *)
Definition stored (lang : string) (rawKontentItem : KontentItem) : Node :=
  node_of (project remote_gone) (config [lang]) lang rawKontentItem.

(** A store holding the English article, its component, the second
    component of the same codename, and the linked author. *)
Definition english_world : World :=
  {| nodes := [stored "en" (article "en"); stored "en" (teaser "en");
               stored "en" (teaser_copy "en"); stored "en" (author "en")];
     trace := [] |}.

Definition upsert_en : Nullable IWebhookDeliveryResponse :=
  event "delivery_preview" (Value "upsert") [variant "en"].

Definition archive_en : Nullable IWebhookDeliveryResponse :=
  event "delivery_preview" (Value "archive") [variant "en"].

(** An upsert reported for German, a language that is not configured. *)
Definition upsert_de : Nullable IWebhookDeliveryResponse :=
  event "delivery_preview" (Value "upsert") [variant "de"].

(** An event whose message has no operation. *)
Definition no_operation : Nullable IWebhookDeliveryResponse :=
  event "delivery_preview" Undefined [variant "en"].

(** An event whose batch is empty. *)
Definition empty_batch : Nullable IWebhookDeliveryResponse :=
  event "delivery_preview" (Value "upsert") [].

(** An event whose item has no id. *)
Definition no_item_id : Nullable IWebhookDeliveryResponse :=
  event "delivery_preview" (Value "upsert")
        [{| item_id := Undefined; item_language := Value "en" |}].

(** Remote state in which the English variant is gone and the Czech one
    still resolves. *)
Definition remote_czech_only (itemId : Field) (lang : string)
    (config : CustomPluginOptions) (wait : bool) : Settled :=
  if field_is itemId article_id && (lang =? "cs")
  then Resolved (Some (article "cs"),
                 [("teaser", teaser "cs"); ("author", author "cs")])
  else Resolved (None, []).

Definition archive_cs : Nullable IWebhookDeliveryResponse :=
  event "delivery_preview" (Value "archive") [variant "cs"].

(** A store that holds a taxonomy and a type definition. *)
Definition taxonomy_node : Node :=
  {| id := "node-kontent-taxonomy-topics";
     internal_type := "kontent_taxonomy";
     node_system := None; node_elements := None;
     node_preferred_language := None |}.

Definition type_node : Node :=
  {| id := "node-kontent-type-article";
     internal_type := "kontent_type";
     node_system := None; node_elements := None;
     node_preferred_language := None |}.

Definition catalogue_world : World :=
  {| nodes := [taxonomy_node; type_node]; trace := [] |}.

Definition config_including (languages : list string)
  : CustomPluginOptions :=
  {| projectId := "e1f2a3b4";
     languageCodenames := languages;
     includeRawContent := false;
     includeTaxonomies := true;
     includeTypes := true |}.

(** The store when the loop over Czech and English has handled Czech,
    which still resolves. *)
Definition after_czech : World :=
  final_world
    (for_of ["cs"]
            (delete_language (project remote_czech_only) (variant "en")
                             (config ["cs"; "en"]))
            english_world).

(** The store when the loop over English and Czech has handled English,
    which still resolves. *)
Definition after_english : World :=
  final_world
    (for_of ["en"]
            (delete_language (project remote_published) (variant "cs")
                             (config ["en"; "cs"]))
            empty_world).

(** An upsert reported by another project. *)
Definition foreign_upsert : Nullable IWebhookDeliveryResponse :=
  Value
    {| data := Value {| items := Value [variant "en"] |};
       message := Value {| api_name := Value "delivery_preview";
                           project_id := Value "0b9c8d7e";
                           operation := Value "upsert";
                           message_type := Value "content_item_variant" |} |}.

(** The message of an upsert of the preview API. *)
Definition preview_upsert : IWebhookMessage :=
  {| api_name := Value "delivery_preview";
     project_id := Value "e1f2a3b4";
     operation := Value "upsert";
     message_type := Value "content_item_variant" |}.

(** An upsert whose batch has a second item. *)
Definition upsert_pair : Nullable IWebhookDeliveryResponse :=
  event "delivery_preview" (Value "upsert") [variant "en"; variant "cs"].

End Scenario.

(** ** The store *)

Lemma store_put_has_id (n : Node) (s : list Node) :
  In (id n) (map id (store_put n s)).
Proof.
  induction s as [|m rest IH]; simpl.
  - now left.
  - destruct (String.eqb_spec (id m) (id n)); simpl; auto.
Qed.

Lemma store_put_keeps_ids (n : Node) (s : list Node) (i : string) :
  In i (map id s) -> In i (map id (store_put n s)).
Proof.
  induction s as [|m rest IH]; simpl; [tauto|].
  destruct (String.eqb_spec (id m) (id n)) as [E|E]; simpl.
  - intros [H|H]; [left; congruence | now right].
  - intros [H|H]; auto.
Qed.

Lemma store_get_put_same (n : Node) (s : list Node) :
  store_get (id n) (store_put n s) = Some n.
Proof.
  unfold store_get.
  induction s as [|m rest IH]; simpl.
  - now rewrite String.eqb_refl.
  - destruct (String.eqb_spec (id m) (id n)) as [E|E]; simpl.
    + now rewrite String.eqb_refl.
    + destruct (String.eqb_spec (id m) (id n)); [contradiction | exact IH].
Qed.

Lemma store_get_put_other (n : Node) (s : list Node) (i : string) :
  i <> id n -> store_get i (store_put n s) = store_get i s.
Proof.
  intros Hi. unfold store_get.
  induction s as [|m rest IH]; simpl.
  - destruct (String.eqb_spec (id n) i); congruence.
  - destruct (String.eqb_spec (id m) (id n)) as [E|E]; simpl.
    + destruct (String.eqb_spec (id n) i); [congruence|].
      destruct (String.eqb_spec (id m) i); congruence.
    + destruct (String.eqb_spec (id m) i); [reflexivity | exact IH].
Qed.

(** Recreating a node under its id replaces the earlier version. *)
Lemma store_put_overwrites (a b : Node) (s : list Node) :
  id a = id b -> store_put b (store_put a s) = store_put b s.
Proof.
  intros E.
  induction s as [|m rest IH]; simpl.
  - rewrite E, String.eqb_refl. reflexivity.
  - destruct (String.eqb_spec (id m) (id a)) as [Ea|Ea]; simpl.
    + rewrite E, String.eqb_refl.
      destruct (String.eqb_spec (id m) (id b)); [reflexivity | congruence].
    + destruct (String.eqb_spec (id m) (id b)); [congruence|].
      now rewrite IH.
Qed.

(** Two puts under different ids commute once one id is stored. *)
Lemma store_put_commutes (a b : Node) (s : list Node) :
  id a <> id b -> In (id b) (map id s) ->
  store_put b (store_put a s) = store_put a (store_put b s).
Proof.
  intros Hab.
  induction s as [|m rest IH]; simpl; [tauto|].
  intros Hin.
  destruct (String.eqb_spec (id m) (id a)) as [Ea|Ea];
    destruct (String.eqb_spec (id m) (id b)) as [Eb|Eb]; simpl.
  - congruence.
  - destruct (String.eqb_spec (id a) (id b)); [contradiction|].
    destruct (String.eqb_spec (id m) (id a)); [reflexivity | contradiction].
  - destruct (String.eqb_spec (id m) (id b)); [|contradiction].
    destruct (String.eqb_spec (id b) (id a)); [congruence | reflexivity].
  - destruct (String.eqb_spec (id m) (id b)); [contradiction|].
    destruct (String.eqb_spec (id m) (id a)); [contradiction|].
    f_equal. apply IH. destruct Hin; congruence.
Qed.

Lemma store_put_all_app (xs ys : list Node) (s : list Node) :
  store_put_all (xs ++ ys) s = store_put_all ys (store_put_all xs s).
Proof. unfold store_put_all. apply fold_left_app. Qed.

Lemma store_put_all_keeps_ids (ns : list Node) (s : list Node) (i : string) :
  In i (map id s) -> In i (map id (store_put_all ns s)).
Proof.
  revert s. induction ns as [|n ns IH]; simpl; intros s H; [exact H|].
  apply IH. now apply store_put_keeps_ids.
Qed.

Lemma store_put_all_has_ids (ns : list Node) (s : list Node) (n : Node) :
  In n ns -> In (id n) (map id (store_put_all ns s)).
Proof.
  revert s. induction ns as [|m ns IH]; simpl; intros s H; [contradiction|].
  destruct H as [->|H].
  - apply store_put_all_keeps_ids, store_put_has_id.
  - now apply IH.
Qed.

(** A put ahead of a batch whose ids are all stored is absorbed by a
    later put of the batch under the same id, and otherwise moves behind
    the batch. *)
Lemma store_put_all_absorbs (ns : list Node) (n : Node) (t : list Node) :
  (forall m, In m ns -> In (id m) (map id t)) ->
  store_put_all ns (store_put n t)
  = if existsb (fun m => id n =? id m) ns
    then store_put_all ns t
    else store_put n (store_put_all ns t).
Proof.
  revert t. induction ns as [|m ns IH]; intros t Hids; simpl; [reflexivity|].
  destruct (String.eqb_spec (id n) (id m)) as [E|E]; simpl.
  - now rewrite store_put_overwrites.
  - rewrite store_put_commutes by (auto; apply Hids; now left).
    apply IH. intros m' Hm'. apply store_put_keeps_ids, Hids. now right.
Qed.

(** Replaying a batch of puts on its own result changes nothing. *)
Lemma store_put_all_idempotent (ns : list Node) (s : list Node) :
  store_put_all ns (store_put_all ns s) = store_put_all ns s.
Proof.
  induction ns as [|n ns IH] using rev_ind; [reflexivity|].
  rewrite !store_put_all_app. simpl.
  set (t := store_put_all ns s) in *.
  rewrite store_put_all_absorbs
    by (intros m Hm; apply store_put_all_has_ids, Hm).
  destruct (existsb (fun m => id n =? id m) ns).
  - now rewrite IH.
  - rewrite IH. now apply store_put_overwrites.
Qed.

Lemma store_remove_all_In (ids : list string) (s : list Node) (c : Node) :
  In c (store_remove_all ids s) <-> In c s /\ ~ In (id c) ids.
Proof.
  revert s. induction ids as [|i ids IH]; intros s; simpl; [tauto|].
  rewrite IH. unfold store_remove. rewrite filter_In.
  destruct (String.eqb_spec (id c) i); simpl; split; intros H.
  - destruct H as [[_ H] _]. discriminate.
  - destruct H as [_ H]. exfalso. apply H. left. congruence.
  - destruct H as [[H _] H']. split; [exact H|]. intros [E|E]; congruence.
  - destruct H as [H H']. tauto.
Qed.

(** ** The loops of the handlers *)

Lemma world_eq (s s' : list Node) (t t' : list Event) :
  s = s' -> t = t' ->
  {| nodes := s; trace := t |} = {| nodes := s'; trace := t' |}.
Proof. intros -> ->. reflexivity. Qed.

Ltac run := unfold bind, ret, throw, emit, verbose, warn, createNode,
  deleteNode, touchNode, getNode, getNodes, getNodesByType; simpl.

Section HandlerFacts.

Variable env : Collaborators.

Lemma createNodeFromRawKontentItem_run (item : KontentItem)
    (pluginConfig : CustomPluginOptions) (lang : string) (w : World) :
  createNodeFromRawKontentItem env item (includeRawContent pluginConfig) lang w
  = Returned (node_of env pluginConfig lang item)
      {| nodes := store_put (node_of env pluginConfig lang item) (nodes w);
         trace := trace w ++ [Created (node_of env pluginConfig lang item)] |}.
Proof. reflexivity. Qed.

Lemma modular_loop_run (pluginConfig : CustomPluginOptions) (lang : string)
    (modularKontent : list (string * KontentItem)) (w : World) :
  let ns := map (fun entry => node_of env pluginConfig lang (snd entry))
                modularKontent in
  for_of modularKontent
    (fun entry =>
       nodeData <- createNodeFromRawKontentItem env
                     (snd entry) (includeRawContent pluginConfig) lang ;;
       ret [id nodeData]) w
  = Returned (map id ns)
      {| nodes := store_put_all ns (nodes w);
         trace := trace w ++ map Created ns |}.
Proof.
  revert w. induction modularKontent as [|entry rest IH]; intros w; simpl.
  - run. rewrite app_nil_r. now destruct w.
  - unfold bind at 1. unfold bind at 1.
    rewrite createNodeFromRawKontentItem_run. unfold ret at 1.
    unfold bind at 1. simpl in IH. rewrite IH. unfold ret. simpl.
    f_equal. apply world_eq; [reflexivity|].
    now rewrite <- app_assoc.
Qed.

Lemma materialize_run (kontentItem : KontentItem)
    (modularKontent : list (string * KontentItem))
    (pluginConfig : CustomPluginOptions) (lang : string) (w : World) :
  let ns := materialized_nodes env pluginConfig lang kontentItem
                               modularKontent in
  materialize env kontentItem modularKontent pluginConfig lang w
  = Returned (map id ns)
      {| nodes := store_put_all ns (nodes w);
         trace := trace w ++ map Created ns |}.
Proof.
  unfold materialize, materialized_nodes. simpl.
  unfold bind at 1. rewrite createNodeFromRawKontentItem_run.
  unfold bind at 1. rewrite modular_loop_run. unfold ret. simpl.
  f_equal. apply world_eq; [reflexivity|].
  now rewrite <- app_assoc.
Qed.

(** One iteration of the upsert loop, by what the fetch settles to. *)
Lemma upsert_language_run (itemInfo : IWebhookItem)
    (pluginConfig : CustomPluginOptions) (lang : string) (w : World) :
  upsert_language env itemInfo pluginConfig lang w
  = match loadKontentItem env (item_id itemInfo) lang pluginConfig true with
    | Resolved (Some kontentItem, modularKontent) =>
        let ns := materialized_nodes env pluginConfig lang kontentItem
                                     modularKontent in
        Returned (map id ns)
          {| nodes := store_put_all ns (nodes w);
             trace := trace w
                      ++ Fetched (item_id itemInfo) lang :: map Created ns |}
    | Resolved (None, _) =>
        Returned []
          {| nodes := nodes w;
             trace := trace w
                      ++ [Fetched (item_id itemInfo) lang;
                          Verbose (VariantNotFoundForUpdate
                                     (item_id itemInfo) lang)] |}
    | Rejected reason =>
        Thrown reason
          {| nodes := nodes w;
             trace := trace w ++ [Fetched (item_id itemInfo) lang] |}
    end.
Proof.
  unfold upsert_language, client_loadKontentItem.
  unfold bind at 1. unfold bind at 1. unfold emit at 1.
  destruct (loadKontentItem env (item_id itemInfo) lang pluginConfig true)
    as [[[kontentItem|] modularKontent]|reason]; cbn [fst snd].
  - unfold ret at 1. cbn [fst snd]. rewrite materialize_run. cbv zeta.
    cbn [nodes trace]. f_equal. apply world_eq; [reflexivity|].
    now rewrite <- app_assoc.
  - run. f_equal. apply world_eq; [reflexivity|].
    now rewrite <- app_assoc.
  - reflexivity.
Qed.

(** The upsert loop: it returns the ids of the created nodes unless a
    fetch is rejected, and then throws that rejection; either way the
    store and the trace are those of the languages handled so far. *)
Lemma upsert_loop_run (itemInfo : IWebhookItem)
    (pluginConfig : CustomPluginOptions) (langs : list string) (w : World) :
  for_of langs (upsert_language env itemInfo pluginConfig) w
  = finish (first_rejection env pluginConfig (item_id itemInfo) langs)
      (map id (upserted_nodes env pluginConfig (item_id itemInfo) langs))
      {| nodes := store_put_all
                    (upserted_nodes env pluginConfig (item_id itemInfo) langs)
                    (nodes w);
         trace := trace w
                  ++ upsert_events env pluginConfig (item_id itemInfo) langs
      |}.
Proof.
  revert w. induction langs as [|lang langs IH]; intros w.
  - simpl. run. rewrite app_nil_r. now destruct w.
  - change (for_of (lang :: langs) (upsert_language env itemInfo pluginConfig) w)
      with (bind (upsert_language env itemInfo pluginConfig lang)
              (fun pushed =>
                 bind (for_of langs (upsert_language env itemInfo pluginConfig))
                      (fun more => ret (pushed ++ more))) w).
    unfold bind at 1. rewrite upsert_language_run.
    cbn [upserted_nodes upsert_events first_rejection].
    destruct (loadKontentItem env (item_id itemInfo) lang pluginConfig true)
      as [[[kontentItem|] modularKontent]|reason]; cbv zeta.
    + unfold bind at 1. rewrite IH. cbn [nodes trace].
      rewrite map_app, store_put_all_app.
      destruct (first_rejection env pluginConfig (item_id itemInfo) langs);
        unfold finish, ret; f_equal; apply world_eq; try reflexivity;
        rewrite <- !app_assoc; reflexivity.
    + unfold bind at 1. rewrite IH. cbn [nodes trace].
      destruct (first_rejection env pluginConfig (item_id itemInfo) langs);
        unfold finish, ret; f_equal; apply world_eq; try reflexivity;
        rewrite <- !app_assoc; reflexivity.
    + reflexivity.
Qed.

Lemma candidate_has_system (node : Node) (codename : string)
    (kontentItemNodes : list Node) (candidate : Node) :
  find (is_candidate node codename) kontentItemNodes = Some candidate ->
  exists sys, node_system candidate = Some sys.
Proof.
  intros H. apply find_some in H. destruct H as [_ H].
  unfold is_candidate in H.
  destruct (node_system candidate) as [sys|]; [now exists sys | discriminate].
Qed.

Lemma cascade_targets_cons (kontentItemNodes : list Node) (node : Node)
    (codename : string) (codenames : list string) :
  cascade_targets kontentItemNodes node (codename :: codenames)
  = cascade_targets kontentItemNodes node [codename]
    ++ cascade_targets kontentItemNodes node codenames.
Proof. unfold cascade_targets. simpl. now rewrite app_nil_r. Qed.

Lemma store_remove_all_app (xs ys : list string) (s : list Node) :
  store_remove_all (xs ++ ys) s = store_remove_all ys (store_remove_all xs s).
Proof. unfold store_remove_all. apply fold_left_app. Qed.

Lemma remove_component_run (kontentItemNodes : list Node) (node : Node)
    (codename : string) (w : World) :
  let cs := cascade_targets kontentItemNodes node [codename] in
  remove_component kontentItemNodes node codename w
  = Returned (map id cs)
      {| nodes := store_remove_all (map id cs) (nodes w);
         trace := trace w ++ map Deleted (map id cs) |}.
Proof.
  unfold remove_component, cascade_targets. simpl.
  destruct (find (is_candidate node codename) kontentItemNodes)
    as [candidate|] eqn:F.
  - destruct (candidate_has_system _ _ _ _ F) as [sys Hsys].
    unfold isContentComponent, has_component_marker. rewrite Hsys.
    run. destruct (substring 14 2 (sys_id sys) =? "01"); simpl.
    + reflexivity.
    + rewrite app_nil_r. now destruct w.
  - simpl. run. rewrite app_nil_r. now destruct w.
Qed.

Lemma cascade_loop_run (kontentItemNodes : list Node) (node : Node)
    (codenames : list string) (w : World) :
  let cs := cascade_targets kontentItemNodes node codenames in
  for_of codenames (remove_component kontentItemNodes node) w
  = Returned (map id cs)
      {| nodes := store_remove_all (map id cs) (nodes w);
         trace := trace w ++ map Deleted (map id cs) |}.
Proof.
  revert w. induction codenames as [|codename codenames IH]; intros w.
  - simpl. run. rewrite app_nil_r. now destruct w.
  - cbv zeta in *.
    change (for_of (codename :: codenames)
              (remove_component kontentItemNodes node) w)
      with (bind (remove_component kontentItemNodes node codename)
              (fun pushed =>
                 bind (for_of codenames
                         (remove_component kontentItemNodes node))
                      (fun more => ret (pushed ++ more))) w).
    unfold bind at 1. rewrite remove_component_run. cbv zeta.
    unfold bind at 1. rewrite IH. unfold ret.
    rewrite (cascade_targets_cons _ _ codename codenames).
    cbn [nodes trace].
    rewrite !map_app, store_remove_all_app, app_assoc. reflexivity.
Qed.

Lemma is_absent_inv (settled : Settled) :
  is_absent settled = true ->
  exists modularKontent, settled = Resolved (None, modularKontent).
Proof.
  destruct settled as [[[kontentItem|] modularKontent]|reason];
    try discriminate.
  intros _. now exists modularKontent.
Qed.

(** The delete branch proper: nothing resolves remotely and the local
    node is stored. *)
Lemma delete_language_removes (itemInfo : IWebhookItem)
    (pluginConfig : CustomPluginOptions) (lang : string) (w : World)
    (node : Node) (els : list (string * KontentItemElement)) :
  is_absent (loadKontentItem env (item_id itemInfo) lang pluginConfig true)
  = true ->
  store_get (node_id_for env (item_id itemInfo) lang) (nodes w) = Some node ->
  node_elements node = Some els ->
  let cs := cascade_targets (kontent_item_nodes env (nodes w)) node
                            (modular_codenames env els) in
  delete_language env itemInfo pluginConfig lang w
  = Returned (map id cs ++ [id node])
      {| nodes := store_remove (id node)
                    (store_remove_all (map id cs) (nodes w));
         trace := trace w
                  ++ Fetched (item_id itemInfo) lang
                     :: map Deleted (map id cs) ++ [Deleted (id node)] |}.
Proof.
  intros Hload Hnode Hels. cbv zeta.
  destruct (is_absent_inv _ Hload) as (modularKontent & Eload).
  unfold delete_language, client_loadKontentItem.
  unfold bind at 1. unfold bind at 1. unfold emit at 1.
  rewrite Eload. unfold ret at 1. cbn [fst snd].
  unfold bind at 1. unfold getNode at 1. cbn [nodes trace].
  unfold node_id_for in Hnode. rewrite Hnode.
  unfold bind at 1. unfold getNodes at 1. cbn [nodes trace].
  rewrite Hels.
  unfold bind at 1.
  pose proof (cascade_loop_run
                (kontent_item_nodes env (nodes w)) node
                (modular_codenames env els)
                {| nodes := nodes w;
                   trace := trace w ++ [Fetched (item_id itemInfo) lang] |})
    as Hloop.
  cbv zeta in Hloop. unfold kontent_item_nodes in Hloop at 1.
  cbn [nodes trace] in Hloop. rewrite Hloop.
  run. f_equal. apply world_eq; [reflexivity|].
  rewrite <- !app_assoc. reflexivity.
Qed.

(** The delete branch when the local node is not stored: the read of
    [node.elements] throws before anything is mutated. *)
Lemma delete_language_throws (itemInfo : IWebhookItem)
    (pluginConfig : CustomPluginOptions) (lang : string) (w : World) :
  is_absent (loadKontentItem env (item_id itemInfo) lang pluginConfig true)
  = true ->
  store_get (node_id_for env (item_id itemInfo) lang) (nodes w) = None ->
  delete_language env itemInfo pluginConfig lang w
  = Thrown (TypeError "elements")
      {| nodes := nodes w;
         trace := trace w ++ [Fetched (item_id itemInfo) lang] |}.
Proof.
  intros Hload Hnode.
  destruct (is_absent_inv _ Hload) as (modularKontent & Eload).
  unfold delete_language, client_loadKontentItem.
  unfold bind at 1. unfold bind at 1. unfold emit at 1.
  rewrite Eload. unfold ret at 1. cbn [fst snd].
  unfold bind at 1. unfold getNode at 1. cbn [nodes trace].
  unfold node_id_for in Hnode. rewrite Hnode.
  reflexivity.
Qed.

(** The fallback branch: a snapshot still resolves. *)
Lemma delete_language_recreates (itemInfo : IWebhookItem)
    (pluginConfig : CustomPluginOptions) (lang : string) (w : World)
    (kontentItem : KontentItem) (modularKontent : list (string * KontentItem)) :
  loadKontentItem env (item_id itemInfo) lang pluginConfig true
  = Resolved (Some kontentItem, modularKontent) ->
  let ns := materialized_nodes env pluginConfig lang kontentItem
                               modularKontent in
  delete_language env itemInfo pluginConfig lang w
  = Returned (map id ns)
      {| nodes := store_put_all ns (nodes w);
         trace := trace w
                  ++ Fetched (item_id itemInfo) lang :: map Created ns |}.
Proof.
  intros Hload. cbv zeta.
  unfold delete_language, client_loadKontentItem.
  unfold bind at 1. unfold bind at 1. unfold emit at 1.
  rewrite Hload. unfold ret at 1. cbn [fst snd].
  rewrite materialize_run. cbv zeta. cbn [nodes trace].
  f_equal. apply world_eq; [reflexivity|].
  rewrite <- app_assoc. reflexivity.
Qed.

(** A rejected fetch leaves the iteration at once. *)
Lemma delete_language_rejected (itemInfo : IWebhookItem)
    (pluginConfig : CustomPluginOptions) (lang : string) (w : World)
    (reason : JsError) :
  loadKontentItem env (item_id itemInfo) lang pluginConfig true
  = Rejected reason ->
  delete_language env itemInfo pluginConfig lang w
  = Thrown reason
      {| nodes := nodes w;
         trace := trace w ++ [Fetched (item_id itemInfo) lang] |}.
Proof.
  intros Hload. unfold delete_language, client_loadKontentItem.
  unfold bind at 1. unfold bind at 1. unfold emit at 1.
  now rewrite Hload.
Qed.

(** *** The touch stage *)

Lemma for_each_touch_run {A : Type} (xs : list A) (f : A -> string)
    (w : World) :
  for_each xs (fun x => touchNode (f x)) w
  = Returned tt
      {| nodes := nodes w;
         trace := trace w ++ map (fun x => Touched (f x)) xs |}.
Proof.
  unfold for_each.
  assert (H : forall w,
             for_of xs (fun x => touchNode (f x) ;;; ret (@nil unit)) w
             = Returned (@nil unit)
                 {| nodes := nodes w;
                    trace := trace w ++ map (fun x => Touched (f x)) xs |}).
  { clear w. induction xs as [|x xs IH]; intros w.
    - simpl. run. rewrite app_nil_r. now destruct w.
    - simpl. unfold bind at 1. unfold bind at 1. unfold touchNode at 1.
      unfold emit at 1. unfold ret at 1. unfold bind at 1. rewrite IH.
      unfold ret. cbn [nodes trace]. rewrite <- app_assoc. reflexivity. }
  unfold bind. rewrite H. reflexivity.
Qed.

Lemma item_types_loop_run (itemTypes processedItemIds : list string)
    (w : World) :
  for_each itemTypes
    (fun itemType =>
       itemsToTouch <- getNodesByType itemType ;;
       for_each
         (filter (fun item => existsb (String.eqb (id item)) processedItemIds)
                 itemsToTouch)
         (fun itemToTouch => touchNode (id itemToTouch))) w
  = Returned tt
      {| nodes := nodes w;
         trace := trace w
                  ++ item_touches itemTypes processedItemIds (nodes w) |}.
Proof.
  unfold for_each at 1.
  match goal with
  | |- bind (for_of _ ?body) _ _ = _ =>
      assert (H : forall w,
                 for_of itemTypes body w
                 = Returned (@nil unit)
                     {| nodes := nodes w;
                        trace := trace w
                                 ++ item_touches itemTypes processedItemIds
                                                 (nodes w) |})
  end.
  { clear w. induction itemTypes as [|itemType rest IH]; intros w.
    - simpl. run. rewrite app_nil_r. now destruct w.
    - simpl. unfold bind at 1. unfold bind at 1. unfold bind at 1.
      unfold getNodesByType at 1. rewrite for_each_touch_run.
      unfold ret at 1. unfold bind at 1. rewrite IH. unfold ret.
      cbn [nodes trace]. rewrite <- app_assoc. reflexivity. }
  unfold bind. rewrite H. reflexivity.
Qed.

Lemma touch_propagation_run (pluginConfig : CustomPluginOptions)
    (itemTypes processedItemIds : list string) (w : World) :
  touch_propagation env pluginConfig itemTypes processedItemIds w
  = Returned tt
      {| nodes := nodes w;
         trace := trace w
                  ++ item_touches itemTypes processedItemIds (nodes w)
                  ++ (if includeTaxonomies pluginConfig
                      then touches_of_type (getKontentTaxonomyTypeName env)
                                           (nodes w)
                      else [])
                  ++ (if includeTypes pluginConfig
                      then touches_of_type (getKontentTypeTypeName env)
                                           (nodes w)
                      else []) |}.
Proof.
  unfold touch_propagation.
  unfold bind at 1. rewrite item_types_loop_run.
  unfold bind at 1.
  destruct (includeTaxonomies pluginConfig);
    destruct (includeTypes pluginConfig);
    unfold bind, getNodesByType, ret; cbn [nodes trace];
    rewrite ?for_each_touch_run; cbn [nodes trace];
    rewrite ?for_each_touch_run; cbn [nodes trace];
    unfold touches_of_type; rewrite ?app_nil_r, <- ?app_assoc; reflexivity.
Qed.

(** ** The envelope validator *)

Lemma item_well_formed_iff (item : IWebhookItem) :
  item_well_formed item = true
  <-> truthy (of_field (item_id item)) = true
      /\ truthy (of_field (item_language item)) = true.
Proof.
  unfold item_well_formed, js_and.
  destruct (truthy (of_field (item_language item))) eqn:E; [tauto|].
  rewrite E. split; [discriminate | intros [_ H]; discriminate].
Qed.

Lemma truthy_js_and (a b : JsValue) :
  truthy (js_and a b) = truthy a && truthy b.
Proof. unfold js_and. destruct (truthy a) eqn:E; simpl; auto. Qed.

(** The test [if (isCorrectStructure)] as a conjunction. *)
Lemma parse_unfold (webhookBody : Nullable IWebhookDeliveryResponse) :
  parseKontentWebhookBody webhookBody
  = if match opt_chain (opt_chain webhookBody data) items with
       | Value l => forallb item_well_formed l
       | _ => false
       end
       && truthy (of_field (opt_chain (opt_chain webhookBody message) api_name))
       && truthy (of_field (opt_chain (opt_chain webhookBody message) project_id))
       && strict_ne_null
            (of_field (opt_chain (opt_chain webhookBody message) operation))
    then webhookBody else Null.
Proof.
  unfold parseKontentWebhookBody. cbv zeta. rewrite !truthy_js_and.
  destruct (opt_chain (opt_chain webhookBody data) items); reflexivity.
Qed.

(** What an accepted body looks like. *)
Lemma parse_accepted_inv (webhookBody : Nullable IWebhookDeliveryResponse)
    (webhook : IWebhookDeliveryResponse) :
  parseKontentWebhookBody webhookBody = Value webhook ->
  webhookBody = Value webhook
  /\ exists d l msg,
      data webhook = Value d /\ items d = Value l
      /\ forallb item_well_formed l = true
      /\ message webhook = Value msg
      /\ truthy (of_field (api_name msg)) = true
      /\ truthy (of_field (project_id msg)) = true
      /\ operation msg <> Null.
Proof.
  rewrite parse_unfold.
  match goal with |- (if ?c then _ else _) = _ -> _ => destruct c eqn:C end;
    [|discriminate].
  intros ->. split; [reflexivity|].
  apply andb_true_iff in C. destruct C as [C Co].
  apply andb_true_iff in C. destruct C as [C Cp].
  apply andb_true_iff in C. destruct C as [Ci Ca].
  simpl in *.
  destruct (data webhook) as [| |d] eqn:Ed; simpl in Ci; try discriminate.
  destruct (items d) as [| |l] eqn:El; simpl in Ci; try discriminate.
  destruct (message webhook) as [| |msg] eqn:Em; simpl in Ca; try discriminate.
  simpl in Cp, Co.
  exists d, l, msg. repeat split; auto.
  intros E. rewrite E in Co. discriminate.
Qed.

Lemma parse_never_undefined (webhookBody : Nullable IWebhookDeliveryResponse) :
  parseKontentWebhookBody webhookBody <> Undefined.
Proof.
  rewrite parse_unfold.
  destruct webhookBody as [| |b]; simpl; try discriminate.
  match goal with |- (if ?c then _ else _) <> _ => destruct c end;
    discriminate.
Qed.

(** A body with well-formed items, a truthy api name and project id, and
    an operation that is not [null] is accepted. *)
Lemma parse_accepts (webhook : IWebhookDeliveryResponse)
    (d : IWebhookData) (l : list IWebhookItem) (msg : IWebhookMessage) :
  data webhook = Value d -> items d = Value l ->
  forallb item_well_formed l = true ->
  message webhook = Value msg ->
  truthy (of_field (api_name msg)) = true ->
  truthy (of_field (project_id msg)) = true ->
  operation msg <> Null ->
  parseKontentWebhookBody (Value webhook) = Value webhook.
Proof.
  intros Ed El Ef Em Ea Ep Eo.
  rewrite parse_unfold. simpl. rewrite Ed, Em. simpl. rewrite El, Ef, Ea, Ep.
  destruct (operation msg); simpl; congruence.
Qed.

Lemma includes_absent (arr : list string) (f : Field) :
  (forall s, f <> Value s) -> includes arr f = false.
Proof.
  intros H. unfold includes. induction arr as [|a arr IH]; [reflexivity|].
  simpl. rewrite IH. destruct f; simpl; try reflexivity.
  exfalso. now apply (H a0).
Qed.

Lemma unsupported_without_operation (msg : IWebhookMessage)
    (projectId : string) :
  (forall s, operation msg <> Value s) ->
  isKontentSupportedWebhook msg projectId = false.
Proof.
  intros H. unfold isKontentSupportedWebhook.
  rewrite !includes_absent by exact H.
  destruct (field_is (project_id msg) projectId);
    destruct (field_is (api_name msg) "delivery_preview");
    destruct (field_is (api_name msg) "delivery_production"); reflexivity.
Qed.

Lemma first_item_run (webhookBody : Nullable IWebhookDeliveryResponse)
    (itemInfo : IWebhookItem) (rest : list IWebhookItem) (w : World) :
  body_items webhookBody = itemInfo :: rest ->
  first_item webhookBody w = Returned (Some itemInfo) w.
Proof.
  unfold body_items, first_item.
  destruct webhookBody as [| |b]; simpl; try discriminate.
  destruct (data b) as [| |d]; simpl; try discriminate.
  destruct (items d) as [| |l]; simpl; try discriminate.
  now intros ->.
Qed.

(** C7: a malformed payload (an item without an id, an item without a
    language, or no operation in the message), and any other payload the
    envelope check rejects, makes [handleIncomingWebhook] return after a
    single verbose diagnostic: the node store is unchanged and nothing is
    created, deleted or touched. *)
Theorem malformed_payload_changes_nothing
    (webhookBody : Nullable IWebhookDeliveryResponse)
    (pluginConfig : CustomPluginOptions) (itemTypes : list string)
    (w : World) :
  malformed webhookBody \/ parseKontentWebhookBody webhookBody = Null ->
  exists d,
    handleIncomingWebhook env webhookBody pluginConfig itemTypes w
    = Returned tt {| nodes := nodes w; trace := trace w ++ [Verbose d] |}
    /\ no_mutation [Verbose d].
Proof.
  intros Hbad.
  assert (Hquiet : forall d, no_mutation [Verbose d]).
  { intros d e [<-|[]]. reflexivity. }
  unfold handleIncomingWebhook.
  destruct (parseKontentWebhookBody webhookBody) as [| |webhook] eqn:P.
  - now destruct (parse_never_undefined webhookBody).
  - exists NotFromKontent. split; [reflexivity | apply Hquiet].
  - destruct (parse_accepted_inv _ _ P)
      as (-> & d & l & msg & Ed & El & Ef & Em & Ea & Ep & Eo).
    rewrite Em.
    assert (Hitems : body_items (Value webhook) = l).
    { unfold body_items. simpl. rewrite Ed. simpl. now rewrite El. }
    rewrite forallb_forall in Ef.
    destruct Hbad as [Hbad|Hnull]; [|discriminate Hnull].
    destruct Hbad as [(item & Hin & Hid) | [(item & Hin & Hlang) | Hop]].
    + rewrite Hitems in Hin. apply Ef, item_well_formed_iff in Hin.
      destruct Hin as [Hin _]. congruence.
    + rewrite Hitems in Hin. apply Ef, item_well_formed_iff in Hin.
      destruct Hin as [_ Hin]. congruence.
    + unfold operation_absent in Hop. simpl in Hop. rewrite Em in Hop.
      simpl in Hop.
      rewrite unsupported_without_operation.
      * simpl. exists NotHandledByPlugin. split; [reflexivity | apply Hquiet].
      * intros s Hs. now rewrite Hs in Hop.
Qed.

(** ** The handlers on the first item of the batch *)

Lemma first_item_of_empty_batch (webhook : IWebhookDeliveryResponse)
    (d : IWebhookData) (w : World) :
  data webhook = Value d -> items d = Value [] ->
  first_item (Value webhook) w = Returned None w.
Proof. intros Ed El. unfold first_item. now rewrite Ed, El. Qed.

Lemma first_rejection_none (pluginConfig : CustomPluginOptions)
    (itemId : Field) (langs : list string) :
  first_rejection env pluginConfig itemId langs = None
  <-> forall lang, In lang langs ->
        is_rejected (loadKontentItem env itemId lang pluginConfig true) = false.
Proof.
  induction langs as [|lang langs IH]; simpl.
  - split; [intros _ l [] | reflexivity].
  - destruct (loadKontentItem env itemId lang pluginConfig true)
      as [result|reason] eqn:E.
    + rewrite IH. split.
      * intros H l [<-|Hl]; [now rewrite E | now apply H].
      * intros H l Hl. apply H. now right.
    + split; [discriminate|]. intros H.
      specialize (H lang (or_introl eq_refl)). rewrite E in H. discriminate.
Qed.

Lemma handleUpsertItem_run
    (webhookBody : Nullable IWebhookDeliveryResponse)
    (pluginConfig : CustomPluginOptions)
    (itemInfo : IWebhookItem) (rest : list IWebhookItem) (w : World) :
  body_items webhookBody = itemInfo :: rest ->
  includes (languageCodenames pluginConfig) (item_language itemInfo) = true ->
  let ns := upserted_nodes env pluginConfig (item_id itemInfo)
                           (languageCodenames pluginConfig) in
  handleUpsertItem env webhookBody pluginConfig w
  = finish (first_rejection env pluginConfig (item_id itemInfo)
                            (languageCodenames pluginConfig))
      (map id ns)
      {| nodes := store_put_all ns (nodes w);
         trace := trace w
                  ++ upsert_events env pluginConfig (item_id itemInfo)
                                   (languageCodenames pluginConfig) |}.
Proof.
  intros Hitems Hlang. cbv zeta. unfold handleUpsertItem.
  unfold bind at 1. rewrite (first_item_run _ _ _ _ Hitems).
  rewrite Hlang. simpl. apply upsert_loop_run.
Qed.

(** The guard on the language of the event, in both handlers. *)
Lemma handlers_ignore_unconfigured_language
    (webhookBody : Nullable IWebhookDeliveryResponse)
    (pluginConfig : CustomPluginOptions)
    (itemInfo : IWebhookItem) (rest : list IWebhookItem) (w : World) :
  body_items webhookBody = itemInfo :: rest ->
  includes (languageCodenames pluginConfig) (item_language itemInfo) = false ->
  let ignored :=
    Returned (@nil string)
      {| nodes := nodes w;
         trace := trace w
                  ++ [Verbose (LanguageNotConfigured (item_language itemInfo))]
      |} in
  handleUpsertItem env webhookBody pluginConfig w = ignored
  /\ handleDeleteItem env webhookBody pluginConfig w = ignored.
Proof.
  intros Hitems Hlang. cbv zeta. unfold handleUpsertItem, handleDeleteItem.
  unfold bind at 1. unfold bind at 2.
  rewrite (first_item_run _ _ _ _ Hitems), Hlang. simpl.
  split; reflexivity.
Qed.

(** C2, as the code has it: when the language the event reports is not
    among the configured ones, both handlers log the mismatch and return
    the empty list at once; no configured language is fetched and no node
    is created or deleted. *)
Theorem unconfigured_language_stops_the_fanout
    (webhookBody : Nullable IWebhookDeliveryResponse)
    (pluginConfig : CustomPluginOptions)
    (itemInfo : IWebhookItem) (rest : list IWebhookItem) (w : World) :
  body_items webhookBody = itemInfo :: rest ->
  includes (languageCodenames pluginConfig) (item_language itemInfo) = false ->
  exists w',
    handleUpsertItem env webhookBody pluginConfig w = Returned [] w'
    /\ handleDeleteItem env webhookBody pluginConfig w = Returned [] w'
    /\ nodes w' = nodes w
    /\ trace w'
       = trace w ++ [Verbose (LanguageNotConfigured (item_language itemInfo))].
Proof.
  intros Hitems Hlang.
  destruct (handlers_ignore_unconfigured_language
              _ pluginConfig _ _ w Hitems Hlang) as [Hu Hd].
  eexists. split; [exact Hu|]. split; [exact Hd|].
  split; reflexivity.
Qed.

Lemma for_of_throws_at {A B : Type} (body : A -> M (list B))
    (before : list A) (x : A) (after : list A)
    (w w1 w2 : World) (pushed : list B) (e : JsError) :
  for_of before body w = Returned pushed w1 ->
  body x w1 = Thrown e w2 ->
  for_of (before ++ x :: after) body w = Thrown e w2.
Proof.
  revert w pushed. induction before as [|y before IH]; intros w pushed.
  - simpl. unfold ret. intros H. injection H as _ <-.
    intros Hx. unfold bind. now rewrite Hx.
  - intros H Hx. simpl in *. unfold bind in *.
    destruct (body y w) as [ids wy|e' wy]; [|discriminate].
    destruct (for_of before body wy) as [more wm|e' wm] eqn:Hrest;
      [|discriminate].
    unfold ret in H. injection H as _ <-.
    now rewrite (IH wy more Hrest Hx).
Qed.

(** C3, on the code: when the loop of [handleDeleteItem] reaches a
    configured language for which nothing resolves remotely and no node
    is stored under the deterministic id, the call does not complete;
    reading [elements] of the missing node throws a TypeError, before the
    guard [if (node)]. *)
Theorem delete_of_missing_node_throws
    (webhookBody : Nullable IWebhookDeliveryResponse)
    (pluginConfig : CustomPluginOptions)
    (itemInfo : IWebhookItem) (rest : list IWebhookItem)
    (before : list string) (lang : string) (after : list string)
    (w w1 : World) (pushed : list string) :
  body_items webhookBody = itemInfo :: rest ->
  includes (languageCodenames pluginConfig) (item_language itemInfo) = true ->
  languageCodenames pluginConfig = before ++ lang :: after ->
  for_of before (delete_language env itemInfo pluginConfig) w
  = Returned pushed w1 ->
  is_absent (loadKontentItem env (item_id itemInfo) lang pluginConfig true)
  = true ->
  store_get (node_id_for env (item_id itemInfo) lang) (nodes w1) = None ->
  handleDeleteItem env webhookBody pluginConfig w
  = Thrown (TypeError "elements")
      {| nodes := nodes w1;
         trace := trace w1 ++ [Fetched (item_id itemInfo) lang] |}.
Proof.
  intros Hitems Hlang Hlangs Hbefore Hload Hnode.
  unfold handleDeleteItem.
  unfold bind at 1. rewrite (first_item_run _ _ _ _ Hitems).
  rewrite Hlang, Hlangs. cbn [negb].
  apply (for_of_throws_at _ _ _ _ _ _ _ _ _ Hbefore).
  exact (delete_language_throws _ _ _ _ Hload Hnode).
Qed.

(** C10: a body with an empty batch and the message fields present passes
    the envelope check; when it is also supported, both handlers read the
    language of the missing first item and throw, and so does
    [handleIncomingWebhook], which therefore does not end as a silent
    no-op.  The node store is unchanged. *)
Theorem empty_batch_is_accepted_then_throws
    (webhook : IWebhookDeliveryResponse) (d : IWebhookData)
    (msg : IWebhookMessage) (pluginConfig : CustomPluginOptions)
    (itemTypes : list string) (w : World) :
  data webhook = Value d -> items d = Value [] ->
  message webhook = Value msg ->
  truthy (of_field (api_name msg)) = true ->
  truthy (of_field (project_id msg)) = true ->
  operation msg <> Null ->
  parseKontentWebhookBody (Value webhook) = Value webhook
  /\ handleUpsertItem env (Value webhook) pluginConfig w
     = Thrown (TypeError "language") w
  /\ handleDeleteItem env (Value webhook) pluginConfig w
     = Thrown (TypeError "language") w
  /\ (isKontentSupportedWebhook msg (projectId pluginConfig) = true ->
      handleIncomingWebhook env (Value webhook) pluginConfig itemTypes w
      = Thrown (TypeError "language")
          {| nodes := nodes w;
             trace := trace w
                      ++ [Verbose (Handling (operation msg) (api_name msg))]
          |}).
Proof.
  intros Ed El Em Ea Ep Eo.
  assert (Hparse : parseKontentWebhookBody (Value webhook) = Value webhook).
  { now apply (parse_accepts webhook d [] msg). }
  assert (Hup : forall w0, handleUpsertItem env (Value webhook) pluginConfig w0
                           = Thrown (TypeError "language") w0).
  { intros w0. unfold handleUpsertItem. unfold bind.
    now rewrite (first_item_of_empty_batch _ _ _ Ed El). }
  assert (Hdel : forall w0, handleDeleteItem env (Value webhook) pluginConfig w0
                            = Thrown (TypeError "language") w0).
  { intros w0. unfold handleDeleteItem. unfold bind.
    now rewrite (first_item_of_empty_batch _ _ _ Ed El). }
  repeat split; auto.
  intros Hsup. unfold handleIncomingWebhook. rewrite Hparse, Em, Hsup.
  cbn [negb]. unfold bind at 1. unfold verbose at 1. unfold emit at 1.
  unfold bind at 1. unfold items_length. rewrite Ed, El.
  unfold ret at 1. cbn [List.length Nat.ltb Nat.leb].
  unfold bind at 1. unfold ret at 1.
  unfold isKontentSupportedWebhook in Hsup.
  destruct (field_is (api_name msg) "delivery_preview") eqn:Hpre.
  - destruct (operation msg) as [| |op]; try (now rewrite !andb_false_r in Hsup).
    simpl in Hsup. simpl.
    destruct (op =? "upsert") eqn:E1; simpl.
    { unfold bind at 1. unfold bind at 1. now rewrite Hup. }
    destruct (op =? "restore") eqn:E2; simpl.
    { unfold bind at 1. unfold bind at 1. now rewrite Hup. }
    unfold bind at 1. unfold ret at 1.
    destruct (op =? "archive") eqn:E3; simpl.
    { unfold bind at 1. unfold bind at 1. now rewrite Hdel. }
    destruct (field_is (api_name msg) "delivery_production") eqn:Hprod.
    { destruct (api_name msg) as [| |a]; try discriminate.
      simpl in Hpre, Hprod. apply String.eqb_eq in Hpre, Hprod.
      subst a. discriminate. }
    simpl in Hsup. now rewrite andb_false_r in Hsup.
  - destruct (field_is (api_name msg) "delivery_production") eqn:Hprod.
    2:{ simpl in Hsup. now rewrite andb_false_r in Hsup. }
    destruct (operation msg) as [| |op]; try (now rewrite !andb_false_r in Hsup).
    simpl in Hsup. simpl.
    destruct (op =? "publish") eqn:E1; simpl.
    { unfold bind at 1. unfold bind at 1. now rewrite Hup. }
    unfold bind at 1. unfold ret at 1.
    destruct (op =? "unpublish") eqn:E2; simpl.
    { unfold bind at 1. unfold bind at 1. now rewrite Hdel. }
    now rewrite andb_false_r in Hsup.
Qed.

(** ** The delete branch and its cascade *)

Lemma store_get_In (i : string) (s : list Node) (n : Node) :
  store_get i s = Some n -> In n s /\ id n = i.
Proof.
  unfold store_get. intros H. apply find_some in H.
  destruct H as [H E]. apply String.eqb_eq in E. now split.
Qed.

Lemma unique_ids_inj (s : list Node) (a b : Node) :
  NoDup (map id s) -> In a s -> In b s -> id a = id b -> a = b.
Proof.
  induction s as [|m s IH]; simpl; [tauto|].
  intros Hnd Ha Hb E. inversion Hnd as [|? ? Hnotin Hnd']; subst.
  destruct Ha as [->|Ha]; destruct Hb as [->|Hb]; auto.
  - exfalso. apply Hnotin. rewrite E. now apply in_map.
  - exfalso. apply Hnotin. rewrite <- E. now apply in_map.
Qed.

Lemma cascade_targets_In (kontentItemNodes : list Node) (node : Node)
    (codenames : list string) (c : Node) :
  In c (cascade_targets kontentItemNodes node codenames)
  <-> exists codename,
        In codename codenames
        /\ find (is_candidate node codename) kontentItemNodes = Some c
        /\ has_component_marker c = true.
Proof.
  unfold cascade_targets. rewrite in_flat_map. split.
  - intros (codename & Hin & Hc). exists codename. split; [exact Hin|].
    destruct (find (is_candidate node codename) kontentItemNodes)
      as [candidate|]; [|contradiction].
    destruct (has_component_marker candidate) eqn:E; [|contradiction].
    destruct Hc as [->|[]]. now split.
  - intros (codename & Hin & Hf & Hm). exists codename. split; [exact Hin|].
    rewrite Hf, Hm. now left.
Qed.

Lemma cascade_targets_stored (s : list Node) (node : Node)
    (codenames : list string) (c : Node) :
  In c (cascade_targets (kontent_item_nodes env s) node codenames) -> In c s.
Proof.
  rewrite cascade_targets_In. intros (codename & _ & Hf & _).
  apply find_some in Hf. destruct Hf as [Hf _].
  unfold kontent_item_nodes in Hf. apply filter_In in Hf. tauto.
Qed.

Lemma for_of_continues_at {A B : Type} (body : A -> M (list B))
    (before : list A) (x : A) (after : list A)
    (w w1 w2 : World) (pushed ids : list B) :
  for_of before body w = Returned pushed w1 ->
  body x w1 = Returned ids w2 ->
  for_of (before ++ x :: after) body w
  = (more <- for_of after body ;; ret (pushed ++ ids ++ more)) w2.
Proof.
  revert w pushed. induction before as [|y before IH]; intros w pushed.
  - simpl. unfold ret at 1. intros H. injection H as <- <-.
    intros Hx. unfold bind at 1. now rewrite Hx.
  - intros H Hx. simpl in *. unfold bind in *.
    destruct (body y w) as [first wy|e wy]; [|discriminate].
    destruct (for_of before body wy) as [others wm|e wm] eqn:Hrest;
      [|discriminate].
    unfold ret in H. injection H as <- <-.
    rewrite (IH wy others Hrest Hx).
    destruct (for_of after body w2) as [more w3|e w3]; [|reflexivity].
    unfold ret. now rewrite <- app_assoc.
Qed.

(** The delete handler once its loop has reached a language whose
    iteration returns: it goes on with the languages after it. *)
Lemma handleDeleteItem_continues_at
    (webhookBody : Nullable IWebhookDeliveryResponse)
    (pluginConfig : CustomPluginOptions)
    (itemInfo : IWebhookItem) (rest : list IWebhookItem)
    (before : list string) (lang : string) (after : list string)
    (w w1 w2 : World) (pushed ids : list string) :
  body_items webhookBody = itemInfo :: rest ->
  includes (languageCodenames pluginConfig) (item_language itemInfo) = true ->
  languageCodenames pluginConfig = before ++ lang :: after ->
  for_of before (delete_language env itemInfo pluginConfig) w
  = Returned pushed w1 ->
  delete_language env itemInfo pluginConfig lang w1 = Returned ids w2 ->
  handleDeleteItem env webhookBody pluginConfig w
  = (more <- for_of after (delete_language env itemInfo pluginConfig) ;;
     ret (pushed ++ ids ++ more)) w2
  /\ (after = [] ->
      handleDeleteItem env webhookBody pluginConfig w
      = Returned (pushed ++ ids) w2).
Proof.
  intros Hitems Hlang Hlangs Hbefore Hiter.
  assert (H : handleDeleteItem env webhookBody pluginConfig w
              = (more <- for_of after
                           (delete_language env itemInfo pluginConfig) ;;
                 ret (pushed ++ ids ++ more)) w2).
  { unfold handleDeleteItem at 1.
    unfold bind at 1. rewrite (first_item_run _ _ _ _ Hitems).
    rewrite Hlang, Hlangs. cbn [negb].
    exact (for_of_continues_at _ _ _ _ _ _ _ _ _ Hbefore Hiter). }
  split; [exact H|].
  intros ->. rewrite H. simpl. unfold bind, ret. now rewrite app_nil_r.
Qed.

Lemma modular_codenames_In (els : list (string * KontentItemElement))
    (codename : string) :
  In codename (modular_codenames env els)
  <-> exists key element,
        In (key, element) els
        /\ element_type element = RICH_TEXT_ELEMENT_TYPE_NAME env
        /\ In codename (modular_content element).
Proof.
  unfold modular_codenames. rewrite in_concat. split.
  - intros (l & Hl & Hc). apply in_map_iff in Hl.
    destruct Hl as (element & <- & He). apply filter_In in He.
    destruct He as [He Hty]. apply String.eqb_eq in Hty.
    apply in_map_iff in He. destruct He as ([key element'] & E & He).
    simpl in E. subst element'. now exists key, element.
  - intros (key & element & He & Hty & Hc).
    exists (modular_content element). split; [|exact Hc].
    apply in_map. apply filter_In. split.
    + apply in_map_iff. now exists (key, element).
    + now apply String.eqb_eq.
Qed.

Lemma is_candidate_iff (node : Node) (codename : string) (x : Node) :
  is_candidate node codename x = true
  <-> exists sys,
        node_system x = Some sys
        /\ sys_codename sys = codename
        /\ node_preferred_language x = node_preferred_language node.
Proof.
  unfold is_candidate.
  destruct (node_system x) as [sys|].
  - rewrite andb_true_iff, String.eqb_eq. split.
    + intros [Hc Hl]. exists sys. repeat split; auto.
      destruct (node_preferred_language x) as [a|],
               (node_preferred_language node) as [b|];
        try discriminate; [|reflexivity].
      apply String.eqb_eq in Hl. now subst.
    + intros (sys' & [= <-] & Hc & Hl). split; [exact Hc|].
      rewrite Hl. destruct (node_preferred_language node);
        [apply String.eqb_refl | reflexivity].
  - split; [discriminate | intros (sys & H & _); discriminate].
Qed.

Lemma find_first {A : Type} (f : A -> bool) (l : list A) (c : A) :
  find f l = Some c
  <-> exists earlier later,
        l = earlier ++ c :: later
        /\ f c = true
        /\ forall x, In x earlier -> f x = false.
Proof.
  induction l as [|a l IH]; simpl.
  - split; [discriminate|].
    intros (earlier & later & E & _). now destruct earlier.
  - destruct (f a) eqn:Fa.
    + split.
      * intros [= <-]. exists [], l. repeat split; auto. intros x [].
      * intros (earlier & later & E & Fc & Hnot).
        destruct earlier as [|b earlier].
        -- now injection E as ->.
        -- injection E as <- _.
           rewrite (Hnot a (or_introl eq_refl)) in Fa. discriminate.
    + rewrite IH. split.
      * intros (earlier & later & -> & Fc & Hnot).
        exists (a :: earlier), later. repeat split; auto.
        intros x [<-|Hx]; auto.
      * intros (earlier & later & E & Fc & Hnot).
        destruct earlier as [|b earlier].
        -- injection E as -> _. congruence.
        -- injection E as <- ->. exists earlier, later.
           repeat split; auto. intros x Hx. apply Hnot. now right.
Qed.

Lemma find_in_filter {A : Type} (f g : A -> bool) (l : list A) :
  find f (filter g l) = find (fun x => g x && f x) l.
Proof.
  induction l as [|a l IH]; [reflexivity|]. simpl.
  destruct (g a); simpl; [|exact IH].
  destruct (f a); [reflexivity | exact IH].
Qed.

(** The lookup of the cascade finds the first stored node, in store
    order, that matches the reference. *)
Lemma candidate_is_first_match (s : list Node) (node : Node)
    (codename : string) (c : Node) :
  find (is_candidate node codename) (kontent_item_nodes env s) = Some c
  <-> exists earlier later,
        s = earlier ++ c :: later
        /\ matches_reference env node codename c
        /\ forall x, In x earlier -> ~ matches_reference env node codename x.
Proof.
  assert (Hm : forall x,
             prefix (getKontentItemInterfaceName env) (internal_type x)
             && is_candidate node codename x = true
             <-> matches_reference env node codename x).
  { intros x. unfold matches_reference.
    now rewrite andb_true_iff, is_candidate_iff. }
  unfold kontent_item_nodes. rewrite find_in_filter, find_first. split.
  - intros (earlier & later & E & Hc & Hnot). exists earlier, later.
    split; [exact E|]. split; [now apply Hm|].
    intros x Hx Hmx. apply Hm in Hmx. rewrite (Hnot x Hx) in Hmx.
    discriminate.
  - intros (earlier & later & E & Hc & Hnot). exists earlier, later.
    split; [exact E|]. split; [now apply Hm|].
    intros x Hx.
    destruct (prefix (getKontentItemInterfaceName env) (internal_type x)
              && is_candidate node codename x) eqn:Ex; [|reflexivity].
    apply Hm in Ex. now destruct (Hnot x Hx).
Qed.

(** C4, as the code has it: when the loop of [handleDeleteItem] reaches a
    configured language [lang] (the iterations for the languages before
    it have returned) for which the fetch resolves without a snapshot
    and the node (item, [lang]) is stored, the handler deletes that node;
    for each codename in the [modular_content] of a rich-text element of
    the node, the first stored node, in store order, whose type starts
    with the item interface name, whose [system.codename] is that
    codename and whose preferred language equals that of the removed
    node is deleted exactly when characters 14 and 15 of its
    [system.id] are 01; every other stored node is retained.  The
    handler then goes on with the languages after [lang], and returns if
    there is none. *)
Theorem delete_removes_node_and_first_matching_components
    (webhookBody : Nullable IWebhookDeliveryResponse)
    (pluginConfig : CustomPluginOptions)
    (itemInfo : IWebhookItem) (rest : list IWebhookItem)
    (before : list string) (lang : string) (after : list string)
    (w w1 : World) (pushed : list string)
    (node : Node) (els : list (string * KontentItemElement)) :
  body_items webhookBody = itemInfo :: rest ->
  includes (languageCodenames pluginConfig) (item_language itemInfo) = true ->
  languageCodenames pluginConfig = before ++ lang :: after ->
  for_of before (delete_language env itemInfo pluginConfig) w
  = Returned pushed w1 ->
  is_absent (loadKontentItem env (item_id itemInfo) lang pluginConfig true)
  = true ->
  store_get (node_id_for env (item_id itemInfo) lang) (nodes w1) = Some node ->
  node_elements node = Some els ->
  NoDup (map id (nodes w1)) ->
  exists ids w2,
    handleDeleteItem env webhookBody pluginConfig w
    = (more <- for_of after (delete_language env itemInfo pluginConfig) ;;
       ret (pushed ++ ids ++ more)) w2
    /\ (after = [] ->
        handleDeleteItem env webhookBody pluginConfig w
        = Returned (pushed ++ ids) w2)
    /\ ~ In node (nodes w2)
    /\ forall c,
         In c (nodes w2)
         <-> In c (nodes w1)
             /\ c <> node
             /\ ~ exists codename key element sys earlier later,
                    In (key, element) els
                    /\ element_type element = RICH_TEXT_ELEMENT_TYPE_NAME env
                    /\ In codename (modular_content element)
                    /\ nodes w1 = earlier ++ c :: later
                    /\ prefix (getKontentItemInterfaceName env)
                              (internal_type c) = true
                    /\ node_system c = Some sys
                    /\ sys_codename sys = codename
                    /\ node_preferred_language c
                       = node_preferred_language node
                    /\ (forall x, In x earlier ->
                          ~ (prefix (getKontentItemInterfaceName env)
                                    (internal_type x) = true
                             /\ exists sx,
                                  node_system x = Some sx
                                  /\ sys_codename sx = codename
                                  /\ node_preferred_language x
                                     = node_preferred_language node))
                    /\ substring 14 2 (sys_id sys) = "01".
Proof.
  intros Hitems Hlang Hlangs Hbefore Hload Hnode Hels Hnd.
  pose proof (delete_language_removes _ _ _ _ _ _ Hload Hnode Hels) as Hiter.
  cbv zeta in Hiter.
  destruct (handleDeleteItem_continues_at
              _ _ _ _ _ _ _ _ _ _ _ _ Hitems Hlang Hlangs Hbefore Hiter)
    as [Hrun Hlast].
  do 2 eexists. split; [exact Hrun|]. split; [exact Hlast|]. cbn [nodes].
  destruct (store_get_In _ _ _ Hnode) as [Hin _].
  set (cs := cascade_targets (kontent_item_nodes env (nodes w1)) node
                             (modular_codenames env els)).
  assert (Hchar : forall c,
             In c (store_remove (id node)
                     (store_remove_all (map id cs) (nodes w1)))
             <-> In c (nodes w1) /\ c <> node /\ ~ In c cs).
  { intros c. unfold store_remove. rewrite filter_In, store_remove_all_In.
    split.
    - intros [[Hc Hnot] Hid]. split; [exact Hc|]. split.
      + intros ->. rewrite String.eqb_refl in Hid. discriminate.
      + intros Hcs. apply Hnot. now apply in_map.
    - intros (Hc & Hne & Hnot). split; [split; [exact Hc|]|].
      + intros Hid. apply in_map_iff in Hid. destruct Hid as (c' & E & Hc').
        assert (c' = c).
        { apply (unique_ids_inj (nodes w1)); auto.
          now apply cascade_targets_stored in Hc'. }
        subst c'. contradiction.
      + destruct (String.eqb_spec (id c) (id node)) as [E|E]; [|reflexivity].
        exfalso. apply Hne. now apply (unique_ids_inj (nodes w1)). }
  assert (Hcs : forall c,
             In c cs
             <-> exists codename key element sys earlier later,
                   In (key, element) els
                   /\ element_type element = RICH_TEXT_ELEMENT_TYPE_NAME env
                   /\ In codename (modular_content element)
                   /\ nodes w1 = earlier ++ c :: later
                   /\ prefix (getKontentItemInterfaceName env)
                             (internal_type c) = true
                   /\ node_system c = Some sys
                   /\ sys_codename sys = codename
                   /\ node_preferred_language c
                      = node_preferred_language node
                   /\ (forall x, In x earlier ->
                         ~ matches_reference env node codename x)
                   /\ substring 14 2 (sys_id sys) = "01").
  { intros c. unfold cs. rewrite cascade_targets_In. split.
    - intros (codename & Hc & Hfind & Hmark).
      apply modular_codenames_In in Hc.
      destruct Hc as (key & element & He & Hty & Hc).
      apply candidate_is_first_match in Hfind.
      destruct Hfind as (earlier & later & E & (Hp & sys & Hs & Hcn & Hl) & Hnot).
      exists codename, key, element, sys, earlier, later.
      repeat split; auto.
      unfold has_component_marker in Hmark. rewrite Hs in Hmark.
      now apply String.eqb_eq.
    - intros (codename & key & element & sys & earlier & later
              & He & Hty & Hc & E & Hp & Hs & Hcn & Hl & Hnot & Hmark).
      exists codename. split; [|split].
      + apply modular_codenames_In. now exists key, element.
      + apply candidate_is_first_match. exists earlier, later.
        split; [exact E|]. split; [|exact Hnot].
        split; [exact Hp|]. now exists sys.
      + unfold has_component_marker. rewrite Hs. now apply String.eqb_eq. }
  split.
  - rewrite Hchar. intros (_ & H & _). now apply H.
  - intros c. rewrite Hchar, Hcs. reflexivity.
Qed.

(** ** The fallback branch *)

Lemma store_get_put_all (ns : list Node) (s : list Node) (n : Node) :
  In n ns ->
  exists n', In n' ns /\ id n' = id n
             /\ store_get (id n) (store_put_all ns s) = Some n'.
Proof.
  induction ns as [|m ns IH] using rev_ind; [contradiction|].
  intros Hin. rewrite store_put_all_app. simpl.
  destruct (String.eqb_spec (id m) (id n)) as [E|E].
  - exists m. split; [apply in_or_app; right; now left|].
    split; [exact E|]. rewrite <- E. apply store_get_put_same.
  - apply in_app_or in Hin. destruct Hin as [Hin|[->|[]]]; [|congruence].
    destruct (IH Hin) as (n' & Hn' & Hid & Hget).
    exists n'. split; [apply in_or_app; now left|]. split; [exact Hid|].
    rewrite store_get_put_other by congruence. exact Hget.
Qed.

Lemma materialized_preferred_language (pluginConfig : CustomPluginOptions)
    (lang : string) (kontentItem : KontentItem)
    (modularKontent : list (string * KontentItem)) (n : Node) :
  In n (materialized_nodes env pluginConfig lang kontentItem modularKontent) ->
  node_preferred_language n = Some lang.
Proof.
  unfold materialized_nodes. intros [<-|H]; [reflexivity|].
  apply in_map_iff in H. destruct H as (entry & <- & _). reflexivity.
Qed.

(** C5, as the code has it: when the loop of [handleDeleteItem] reaches a
    configured language [lang] (the iterations for the languages before
    it have returned) for which the fetch still resolves with a snapshot
    of the item, the handler creates the node of the snapshot and of
    every entry of its modular content map with preferred language
    [lang]; afterwards a node created by this iteration is stored under
    the id of (item, [lang]); the iteration deletes nothing (its events
    are the fetch and the creations), so no cascade runs and every id
    stored before is still stored.  The handler then goes on with the
    languages after [lang], and returns if there is none. *)
Theorem fallback_recreates_instead_of_deleting
    (webhookBody : Nullable IWebhookDeliveryResponse)
    (pluginConfig : CustomPluginOptions)
    (itemInfo : IWebhookItem) (rest : list IWebhookItem) (itemId : string)
    (before : list string) (lang : string) (after : list string)
    (w w1 : World) (pushed : list string)
    (kontentItem : KontentItem) (modularKontent : list (string * KontentItem)) :
  body_items webhookBody = itemInfo :: rest ->
  includes (languageCodenames pluginConfig) (item_language itemInfo) = true ->
  languageCodenames pluginConfig = before ++ lang :: after ->
  for_of before (delete_language env itemInfo pluginConfig) w
  = Returned pushed w1 ->
  item_id itemInfo = Value itemId ->
  loadKontentItem env (item_id itemInfo) lang pluginConfig true
  = Resolved (Some kontentItem, modularKontent) ->
  sys_id (system kontentItem) = itemId ->
  let ns := materialized_nodes env pluginConfig lang kontentItem
                               modularKontent in
  exists w2,
    handleDeleteItem env webhookBody pluginConfig w
    = (more <- for_of after (delete_language env itemInfo pluginConfig) ;;
       ret (pushed ++ map id ns ++ more)) w2
    /\ (after = [] ->
        handleDeleteItem env webhookBody pluginConfig w
        = Returned (pushed ++ map id ns) w2)
    /\ hd_error (map id ns) = Some (node_id_for env (Value itemId) lang)
    /\ List.length ns = S (List.length modularKontent)
    /\ (forall n, In n ns -> node_preferred_language n = Some lang)
    /\ nodes w2 = store_put_all ns (nodes w1)
    /\ trace w2 = trace w1 ++ Fetched (Value itemId) lang :: map Created ns
    /\ (exists n, store_get (node_id_for env (Value itemId) lang) (nodes w2)
                  = Some n
                  /\ In n ns)
    /\ (forall i, ~ In (Deleted i) (Fetched (Value itemId) lang
                                    :: map Created ns))
    /\ (forall i, In i (map id (nodes w1)) -> In i (map id (nodes w2))).
Proof.
  intros Hitems Hlang Hlangs Hbefore Hid Hload Hsys. cbv zeta.
  pose proof (delete_language_recreates _ _ _ w1 _ _ Hload) as Hiter.
  cbv zeta in Hiter.
  destruct (handleDeleteItem_continues_at
              _ _ _ _ _ _ _ _ _ _ _ _ Hitems Hlang Hlangs Hbefore Hiter)
    as [Hrun Hlast].
  eexists. split; [exact Hrun|]. split; [exact Hlast|].
  cbn [nodes trace]. rewrite Hid.
  set (ns := materialized_nodes env pluginConfig lang kontentItem
                                modularKontent).
  assert (Hfirst : id (node_of env pluginConfig lang kontentItem)
                   = node_id_for env (Value itemId) lang).
  { unfold node_of, node_id_for. simpl. now rewrite Hsys. }
  assert (Hin : In (node_of env pluginConfig lang kontentItem) ns)
    by now left.
  split; [change (hd_error (map id ns))
            with (Some (id (node_of env pluginConfig lang kontentItem)));
          now rewrite Hfirst|].
  split; [unfold ns, materialized_nodes; simpl; now rewrite length_map|].
  split; [apply materialized_preferred_language|].
  split; [reflexivity|]. split; [reflexivity|].
  split.
  - destruct (store_get_put_all ns (nodes w1) _ Hin) as (n' & Hn' & _ & Hget).
    exists n'. rewrite <- Hfirst. now split.
  - split.
    + intros i [H|H]; [discriminate|].
      apply in_map_iff in H. destruct H as (n & H & _). discriminate.
    + intros i. apply store_put_all_keeps_ids.
Qed.

(** ** Idempotence of the upsert *)

(** C9: handling the same upsert event a second time, against the same
    remote state, ends as the first handling did, with the same returned
    ids (or the same rejection of a fetch), and leaves the node store
    exactly as the first handling left it; when no fetch is rejected
    both handlings return normally; recreating one node under its id is
    itself idempotent on the store. *)
Theorem upsert_twice_is_upsert_once
    (webhookBody : Nullable IWebhookDeliveryResponse)
    (pluginConfig : CustomPluginOptions)
    (itemInfo : IWebhookItem) (rest : list IWebhookItem) (w : World) :
  body_items webhookBody = itemInfo :: rest ->
  (let first := handleUpsertItem env webhookBody pluginConfig w in
   let second :=
     handleUpsertItem env webhookBody pluginConfig (final_world first) in
   result_of second = result_of first
   /\ nodes (final_world second) = nodes (final_world first))
  /\ ((forall lang, In lang (languageCodenames pluginConfig) ->
         is_rejected (loadKontentItem env (item_id itemInfo) lang
                                      pluginConfig true) = false) ->
      exists ids w1 w2,
        handleUpsertItem env webhookBody pluginConfig w = Returned ids w1
        /\ handleUpsertItem env webhookBody pluginConfig w1 = Returned ids w2
        /\ nodes w2 = nodes w1)
  /\ forall (rawKontentItem : KontentItem) (lang : string) (s : list Node),
       let n := node_of env pluginConfig lang rawKontentItem in
       store_put n (store_put n s) = store_put n s.
Proof.
  intros Hitems. split; [|split].
  - cbv zeta.
    destruct (includes (languageCodenames pluginConfig)
                       (item_language itemInfo)) eqn:Hlang.
    + rewrite !(handleUpsertItem_run _ _ _ _ _ Hitems Hlang). cbv zeta.
      destruct (first_rejection env pluginConfig (item_id itemInfo)
                                (languageCodenames pluginConfig));
        cbn [finish final_world result_of nodes];
        (split; [reflexivity | apply store_put_all_idempotent]).
    + destruct (handlers_ignore_unconfigured_language
                  _ pluginConfig _ _ w Hitems Hlang) as [-> _].
      cbn [final_world].
      destruct (handlers_ignore_unconfigured_language
                  _ pluginConfig _ _
                  {| nodes := nodes w;
                     trace := trace w
                              ++ [Verbose (LanguageNotConfigured
                                             (item_language itemInfo))] |}
                  Hitems Hlang) as [-> _].
      split; reflexivity.
  - intros Hresolve.
    destruct (includes (languageCodenames pluginConfig)
                       (item_language itemInfo)) eqn:Hlang.
    + apply first_rejection_none in Hresolve.
      do 3 eexists.
      split; [rewrite (handleUpsertItem_run _ _ _ _ _ Hitems Hlang), Hresolve;
              reflexivity|].
      split; [rewrite (handleUpsertItem_run _ _ _ _ _ Hitems Hlang), Hresolve;
              reflexivity|].
      cbn [nodes]. apply store_put_all_idempotent.
    + do 3 eexists.
      split; [apply (handlers_ignore_unconfigured_language
                       _ _ _ _ _ Hitems Hlang)|].
      split; [apply (handlers_ignore_unconfigured_language
                       _ _ _ _ _ Hitems Hlang)|].
      reflexivity.
  - intros rawKontentItem lang s n. now apply store_put_overwrites.
Qed.

(** ** Touch propagation *)

Lemma item_touches_In (itemTypes processedItemIds : list string)
    (s : list Node) (e : Event) :
  In e (item_touches itemTypes processedItemIds s)
  <-> exists n, e = Touched (id n) /\ In n s
                /\ In (internal_type n) itemTypes
                /\ In (id n) processedItemIds.
Proof.
  unfold item_touches. rewrite in_flat_map. split.
  - intros (itemType & Hty & H). apply in_map_iff in H.
    destruct H as (n & <- & H). rewrite !filter_In in H.
    destruct H as [[Hn Et] Hp]. apply String.eqb_eq in Et.
    apply existsb_exists in Hp. destruct Hp as (i & Hi & Ei).
    apply String.eqb_eq in Ei. exists n. subst. auto.
  - intros (n & -> & Hn & Hty & Hp). exists (internal_type n).
    split; [exact Hty|]. apply in_map_iff. exists n. split; [reflexivity|].
    rewrite !filter_In. repeat split; auto.
    + apply String.eqb_refl.
    + apply existsb_exists. exists (id n). split; [exact Hp|].
      apply String.eqb_refl.
Qed.

(** With no processed id, the loop over the item types touches nothing. *)
Lemma item_touches_nil (itemTypes : list string) (s : list Node) :
  item_touches itemTypes [] s = [].
Proof.
  assert (H : forall l : list Node,
             filter (fun item => existsb (String.eqb (id item)) []) l = []).
  { intros l. induction l; simpl; auto. }
  unfold item_touches. induction itemTypes as [|ty rest IH]; [reflexivity|].
  cbn [flat_map]. rewrite IH, H. reflexivity.
Qed.

Lemma touches_of_type_In (ty : string) (s : list Node) (n : Node) :
  In n s -> internal_type n = ty -> In (Touched (id n)) (touches_of_type ty s).
Proof.
  intros Hn Hty. unfold touches_of_type. apply in_map_iff. exists n.
  split; [reflexivity|]. apply filter_In. split; [exact Hn|].
  now apply String.eqb_eq.
Qed.

(** *** What the touch stage of [handleIncomingWebhook] is given *)

(** The result of [concat] is dropped, so after an upsert of a supported
    preview event the touch stage runs on the empty list. *)
Lemma handleIncomingWebhook_preview_upsert
    (webhook : IWebhookDeliveryResponse) (msg : IWebhookMessage)
    (pluginConfig : CustomPluginOptions) (itemTypes : list string)
    (w : World) :
  parseKontentWebhookBody (Value webhook) = Value webhook ->
  message webhook = Value msg ->
  isKontentSupportedWebhook msg (projectId pluginConfig) = true ->
  api_name msg = Value "delivery_preview" ->
  operation msg = Value "upsert" ->
  handleIncomingWebhook env (Value webhook) pluginConfig itemTypes w
  = (verbose (Handling (operation msg) (api_name msg)) ;;;
     n <- items_length webhook ;;
     (if (1 <? n)%nat then warn (MoreThanOneItem n) else ret tt) ;;;
     handleUpsertItem env (Value webhook) pluginConfig ;;;
     touch_propagation env pluginConfig itemTypes []) w.
Proof.
  intros Hparse Hmsg Hsup Hapi Hop.
  unfold handleIncomingWebhook. rewrite Hparse, Hmsg, Hsup. cbn [negb].
  rewrite Hapi, Hop. cbn [field_is String.eqb Ascii.eqb Bool.eqb orb].
  unfold bind.
  destruct (verbose _ w) as [u w1|e w1]; [|reflexivity].
  destruct (items_length webhook w1) as [n w2|e w2]; [|reflexivity].
  destruct ((if (1 <? n)%nat then warn (MoreThanOneItem n) else ret tt) w2)
    as [u' w3|e w3]; [|reflexivity].
  destruct (handleUpsertItem env (Value webhook) pluginConfig w3)
    as [ids w4|e w4]; reflexivity.
Qed.

End HandlerFacts.

(** ** The concrete project *)

Module ScenarioFacts.

Import Scenario.

(** C1, on the code: for an upsert of the article with the languages
    English and Czech configured and a snapshot for both,
    [handleUpsertItem] creates the two primary nodes and the nodes of
    both modular maps and returns their six ids; [handleIncomingWebhook]
    stores the same nodes, all of registered types, but runs the touch
    stage on the empty list, because the array returned by [concat] is
    dropped: none of the ids is touched. *)
Theorem processed_ids_do_not_reach_the_touch_stage :
  let env := project remote_published in
  let pluginConfig := config ["en"; "cs"] in
  exists ids w1 w2,
    handleUpsertItem env upsert_en pluginConfig empty_world = Returned ids w1
    /\ ids = map id (materialized_nodes env pluginConfig "en" (article "en")
                       [("teaser", teaser "en"); ("author", author "en")])
             ++ map id (materialized_nodes env pluginConfig "cs" (article "en")
                          [("teaser", teaser "en"); ("author", author "en")])
    /\ In (node_id_for env (Value article_id) "en") ids
    /\ In (node_id_for env (Value article_id) "cs") ids
    /\ handleIncomingWebhook env upsert_en pluginConfig item_types empty_world
       = (verbose (Handling (Value "upsert") (Value "delivery_preview")) ;;;
          n <- items_length
                 (envelope "delivery_preview" (Value "upsert") [variant "en"]) ;;
          (if (1 <? n)%nat then warn (MoreThanOneItem n) else ret tt) ;;;
          handleUpsertItem env upsert_en pluginConfig ;;;
          touch_propagation env pluginConfig item_types []) empty_world
    /\ handleIncomingWebhook env upsert_en pluginConfig item_types empty_world
       = Returned tt w2
    /\ nodes w2 = nodes w1
    /\ map id (nodes w2) = ids
    /\ (forall n, In n (nodes w2) -> In (internal_type n) item_types)
    /\ (forall i, ~ In (Touched i) (trace w2)).
Proof.
  intros env pluginConfig.
  exists (map id (upserted_nodes env pluginConfig (Value article_id)
                                 ["en"; "cs"])).
  exists (final_world
            (handleUpsertItem env upsert_en pluginConfig empty_world)).
  exists (final_world
            (handleIncomingWebhook env upsert_en pluginConfig item_types
                                   empty_world)).
  split; [vm_compute; reflexivity|]. split; [vm_compute; reflexivity|].
  split; [vm_compute; now left|]. split; [vm_compute; do 3 right; now left|].
  split.
  { apply (handleIncomingWebhook_preview_upsert
             env (envelope "delivery_preview" (Value "upsert") [variant "en"])
             {| api_name := Value "delivery_preview";
                project_id := Value "e1f2a3b4";
                operation := Value "upsert";
                message_type := Value "content_item_variant" |});
      reflexivity. }
  split; [vm_compute; reflexivity|]. split; [vm_compute; reflexivity|].
  split; [vm_compute; reflexivity|].
  split.
  - intros n H. vm_compute in H.
    repeat (destruct H as [H|H]; [subst n; vm_compute; tauto|]).
    contradiction.
  - intros i H. vm_compute in H.
    repeat (destruct H as [H|H]; [discriminate H|]). exact H.
Qed.

(** C6, on the code: a body whose message has no [operation] property,
    and is otherwise well formed, passes the envelope check, since
    [undefined !== null] holds. *)
Theorem missing_operation_is_accepted :
  operation_absent no_operation
  /\ parseKontentWebhookBody no_operation = no_operation
  /\ parseKontentWebhookBody no_operation <> Null.
Proof.
  split; [exact I|]. split; [reflexivity | discriminate].
Qed.

(** C8, on the code: with taxonomy and type inclusion configured and a
    taxonomy and a type definition stored, an upsert of the article
    creates its node, of a registered item type, and returns its id
    among the processed ids; yet the run touches the taxonomy and the
    type definition only.  The created node is not touched, because the
    touch loop filters by the list that [concat] never extended. *)
Theorem processed_item_node_is_not_touched :
  let env := project remote_published in
  let pluginConfig := config_including ["en"] in
  let created := node_of env pluginConfig "en" (article "en") in
  exists ids w1 w2,
    handleUpsertItem env upsert_en pluginConfig catalogue_world
    = Returned ids w1
    /\ handleIncomingWebhook env upsert_en pluginConfig item_types
                             catalogue_world
       = Returned tt w2
    /\ In created (nodes w2)
    /\ In (internal_type created) item_types
    /\ In (id created) ids
    /\ ~ In (Touched (id created)) (trace w2)
    /\ touched_ids (trace w2) = [id taxonomy_node; id type_node].
Proof.
  intros env pluginConfig created.
  exists (map id (upserted_nodes env pluginConfig (Value article_id) ["en"])).
  exists (final_world
            (handleUpsertItem env upsert_en pluginConfig catalogue_world)).
  exists (final_world
            (handleIncomingWebhook env upsert_en pluginConfig item_types
                                   catalogue_world)).
  split; [vm_compute; reflexivity|]. split; [vm_compute; reflexivity|].
  split; [vm_compute; do 2 right; now left|].
  split; [vm_compute; now left|].
  split; [vm_compute; now left|].
  split; [|vm_compute; reflexivity].
  intros H. vm_compute in H.
  repeat (destruct H as [H|H]; [discriminate H|]). exact H.
Qed.

(** C2 fails as stated: German is not configured, English and Czech are
    and resolve remotely, yet the handling of the supported event fetches
    nothing for either and stores no node. *)
Lemma unconfigured_language_skips_configured_ones :
  let env := project remote_published in
  let pluginConfig := config ["en"; "cs"] in
  let outcome :=
    handleIncomingWebhook env upsert_de pluginConfig item_types empty_world in
  parseKontentWebhookBody upsert_de = upsert_de
  /\ includes (languageCodenames pluginConfig) (item_language (variant "de"))
     = false
  /\ (forall lang, In lang (languageCodenames pluginConfig) ->
                   has_snapshot (loadKontentItem env (Value article_id) lang
                                                 pluginConfig true) = true)
  /\ ~ (forall lang, In lang (languageCodenames pluginConfig) ->
                     In (Fetched (Value article_id) lang)
                        (trace (final_world outcome)))
  /\ nodes (final_world outcome) = [].
Proof.
  cbv zeta. split; [reflexivity|]. split; [reflexivity|].
  split.
  - intros lang [<-|[<-|[]]]; reflexivity.
  - split; [|vm_compute; reflexivity].
    intros H. specialize (H "en" (or_introl eq_refl)). vm_compute in H.
    repeat (destruct H as [H|H]; [discriminate H|]). exact H.
Qed.

(** C4 fails as stated: the second component with the codename of the
    teaser is a stored item node, its codename is referenced by the
    rich text of the article, its preferred language is that of the
    article and its id carries the component marker, yet it is retained:
    the lookup stops at the first match. *)
Lemma later_matching_component_is_retained :
  let env := project remote_gone in
  let pluginConfig := config ["en"] in
  let root := stored "en" (article "en") in
  let copy := stored "en" (teaser_copy "en") in
  exists ids w',
    handleDeleteItem env archive_en pluginConfig english_world
    = Returned ids w'
    /\ store_get (node_id_for env (Value article_id) "en")
                 (nodes english_world) = Some root
    /\ ~ In root (nodes w')
    /\ In copy (kontent_item_nodes env (nodes english_world))
    /\ In "teaser" (modular_codenames env (elements (article "en")))
    /\ is_candidate root "teaser" copy = true
    /\ has_component_marker copy = true
    /\ In copy (nodes w').
Proof.
  cbv zeta.
  exists (map id [stored "en" (teaser "en"); stored "en" (article "en")]).
  exists (final_world
            (handleDeleteItem (project remote_gone) archive_en (config ["en"])
                              english_world)).
  split; [vm_compute; reflexivity|]. split; [vm_compute; reflexivity|].
  split.
  - vm_compute. intros [H|[H|[]]]; discriminate H.
  - split; [vm_compute; do 2 right; now left|].
    split; [vm_compute; now left|].
    split; [vm_compute; reflexivity|]. split; [vm_compute; reflexivity|].
    vm_compute. now left.
Qed.

(** *** The general theorems at the concrete project *)

Lemma unconfigured_language_stops_the_fanout_witness :
  let env := project remote_published in
  let pluginConfig := config ["en"; "cs"] in
  body_items upsert_de = [variant "de"]
  /\ includes (languageCodenames pluginConfig) (item_language (variant "de"))
     = false
  /\ exists w',
       handleUpsertItem env upsert_de pluginConfig empty_world = Returned [] w'
       /\ handleDeleteItem env upsert_de pluginConfig empty_world
          = Returned [] w'
       /\ nodes w' = nodes empty_world
       /\ trace w'
          = trace empty_world
            ++ [Verbose (LanguageNotConfigured (item_language (variant "de")))].
Proof.
  intros env pluginConfig.
  split; [reflexivity|]. split; [reflexivity|].
  apply (unconfigured_language_stops_the_fanout
           env upsert_de pluginConfig (variant "de") [] empty_world);
    reflexivity.
Defined.

Lemma delete_of_missing_node_throws_witness :
  let env := project remote_gone in
  let pluginConfig := config ["en"] in
  body_items archive_en = [variant "en"]
  /\ includes (languageCodenames pluginConfig) (item_language (variant "en"))
     = true
  /\ languageCodenames pluginConfig = [] ++ "en" :: []
  /\ for_of [] (delete_language env (variant "en") pluginConfig) empty_world
     = Returned [] empty_world
  /\ is_absent (loadKontentItem env (item_id (variant "en")) "en"
                                pluginConfig true) = true
  /\ store_get (node_id_for env (item_id (variant "en")) "en")
               (nodes empty_world) = None
  /\ handleDeleteItem env archive_en pluginConfig empty_world
     = Thrown (TypeError "elements")
         {| nodes := nodes empty_world;
            trace := trace empty_world
                     ++ [Fetched (item_id (variant "en")) "en"] |}.
Proof.
  intros env pluginConfig.
  repeat (split; [reflexivity|]).
  apply (delete_of_missing_node_throws
           env archive_en pluginConfig (variant "en") [] [] "en" []
           empty_world empty_world []);
    reflexivity.
Defined.

(** C5 fails as stated: Czech still resolves to a snapshot, but the
    request for English, which comes first, is rejected; the rejection
    leaves the delete handler, and the node of (item, Czech) is never
    created. *)
Lemma rejected_earlier_fetch_prevents_recreation :
  let env := project remote_english_down in
  let pluginConfig := config ["en"; "cs"] in
  let outcome := handleDeleteItem env archive_cs pluginConfig empty_world in
  In "cs" (languageCodenames pluginConfig)
  /\ has_snapshot (loadKontentItem env (Value article_id) "cs"
                                   pluginConfig true) = true
  /\ outcome
     = Thrown (RemoteFailure "503")
         {| nodes := []; trace := [Fetched (Value article_id) "en"] |}
  /\ store_get (node_id_for env (Value article_id) "cs")
               (nodes (final_world outcome)) = None.
Proof.
  cbv zeta. split; [right; now left|].
  split; [reflexivity|]. split; vm_compute; reflexivity.
Qed.

Lemma after_czech_unique_ids : NoDup (map id (nodes after_czech)).
Proof.
  repeat (constructor;
          [vm_compute; intros H;
           repeat (destruct H as [H|H]; [discriminate H|]); exact H|]).
  constructor.
Defined.

Lemma delete_removes_node_and_first_matching_components_witness :
  let env := project remote_czech_only in
  let pluginConfig := config ["cs"; "en"] in
  let itemInfo := variant "en" in
  let node := stored "en" (article "en") in
  let els := elements (article "en") in
  let w := english_world in
  let w1 := after_czech in
  let pushed :=
    map id (materialized_nodes env pluginConfig "cs" (article "cs")
              [("teaser", teaser "cs"); ("author", author "cs")]) in
  body_items archive_en = itemInfo :: []
  /\ includes (languageCodenames pluginConfig) (item_language itemInfo) = true
  /\ languageCodenames pluginConfig = ["cs"] ++ "en" :: []
  /\ for_of ["cs"] (delete_language env itemInfo pluginConfig) w
     = Returned pushed w1
  /\ is_absent (loadKontentItem env (item_id itemInfo) "en" pluginConfig true)
     = true
  /\ store_get (node_id_for env (item_id itemInfo) "en") (nodes w1)
     = Some node
  /\ node_elements node = Some els
  /\ NoDup (map id (nodes w1))
  /\ exists ids w2,
       handleDeleteItem env archive_en pluginConfig w
       = (more <- for_of [] (delete_language env itemInfo pluginConfig) ;;
          ret (pushed ++ ids ++ more)) w2
       /\ ([] = @nil string ->
           handleDeleteItem env archive_en pluginConfig w
           = Returned (pushed ++ ids) w2)
       /\ ~ In node (nodes w2)
       /\ forall c,
            In c (nodes w2)
            <-> In c (nodes w1)
                /\ c <> node
                /\ ~ exists codename key element sys earlier later,
                       In (key, element) els
                       /\ element_type element
                          = RICH_TEXT_ELEMENT_TYPE_NAME env
                       /\ In codename (modular_content element)
                       /\ nodes w1 = earlier ++ c :: later
                       /\ prefix (getKontentItemInterfaceName env)
                                 (internal_type c) = true
                       /\ node_system c = Some sys
                       /\ sys_codename sys = codename
                       /\ node_preferred_language c
                          = node_preferred_language node
                       /\ (forall x, In x earlier ->
                             ~ (prefix (getKontentItemInterfaceName env)
                                       (internal_type x) = true
                                /\ exists sx,
                                     node_system x = Some sx
                                     /\ sys_codename sx = codename
                                     /\ node_preferred_language x
                                        = node_preferred_language node))
                       /\ substring 14 2 (sys_id sys) = "01".
Proof.
  intros env pluginConfig itemInfo node els w w1 pushed.
  assert (Hbefore : for_of ["cs"] (delete_language env itemInfo pluginConfig) w
                    = Returned pushed w1) by (vm_compute; reflexivity).
  assert (Hnode : store_get (node_id_for env (item_id itemInfo) "en")
                            (nodes w1) = Some node)
    by (vm_compute; reflexivity).
  split; [reflexivity|]. split; [reflexivity|]. split; [reflexivity|].
  split; [exact Hbefore|]. split; [reflexivity|]. split; [exact Hnode|].
  split; [reflexivity|]. split; [exact after_czech_unique_ids|].
  exact (delete_removes_node_and_first_matching_components
           env archive_en pluginConfig itemInfo [] ["cs"] "en" []
           w w1 pushed node els
           eq_refl eq_refl eq_refl Hbefore eq_refl Hnode eq_refl
           after_czech_unique_ids).
Defined.

Lemma fallback_recreates_instead_of_deleting_witness :
  let env := project remote_published in
  let pluginConfig := config ["en"; "cs"] in
  let itemInfo := variant "cs" in
  let modularKontent := [("teaser", teaser "en"); ("author", author "en")] in
  let ns := materialized_nodes env pluginConfig "cs" (article "en")
                               modularKontent in
  let pushed := map id (materialized_nodes env pluginConfig "en" (article "en")
                          modularKontent) in
  let w := empty_world in
  let w1 := after_english in
  body_items archive_cs = itemInfo :: []
  /\ includes (languageCodenames pluginConfig) (item_language itemInfo) = true
  /\ languageCodenames pluginConfig = ["en"] ++ "cs" :: []
  /\ for_of ["en"] (delete_language env itemInfo pluginConfig) w
     = Returned pushed w1
  /\ item_id itemInfo = Value article_id
  /\ loadKontentItem env (item_id itemInfo) "cs" pluginConfig true
     = Resolved (Some (article "en"), modularKontent)
  /\ sys_id (system (article "en")) = article_id
  /\ exists w2,
       handleDeleteItem env archive_cs pluginConfig w
       = (more <- for_of [] (delete_language env itemInfo pluginConfig) ;;
          ret (pushed ++ map id ns ++ more)) w2
       /\ ([] = @nil string ->
           handleDeleteItem env archive_cs pluginConfig w
           = Returned (pushed ++ map id ns) w2)
       /\ hd_error (map id ns) = Some (node_id_for env (Value article_id) "cs")
       /\ List.length ns = S (List.length modularKontent)
       /\ (forall n, In n ns -> node_preferred_language n = Some "cs")
       /\ nodes w2 = store_put_all ns (nodes w1)
       /\ trace w2 = trace w1 ++ Fetched (Value article_id) "cs"
                                :: map Created ns
       /\ (exists n, store_get (node_id_for env (Value article_id) "cs")
                               (nodes w2) = Some n
                     /\ In n ns)
       /\ (forall i, ~ In (Deleted i) (Fetched (Value article_id) "cs"
                                       :: map Created ns))
       /\ (forall i, In i (map id (nodes w1)) -> In i (map id (nodes w2))).
Proof.
  intros env pluginConfig itemInfo modularKontent ns pushed w w1.
  assert (Hbefore : for_of ["en"] (delete_language env itemInfo pluginConfig) w
                    = Returned pushed w1) by (vm_compute; reflexivity).
  split; [reflexivity|]. split; [reflexivity|]. split; [reflexivity|].
  split; [exact Hbefore|].
  split; [reflexivity|]. split; [reflexivity|]. split; [reflexivity|].
  exact (fallback_recreates_instead_of_deleting
           env archive_cs pluginConfig itemInfo [] article_id ["en"] "cs" []
           w w1 pushed (article "en") modularKontent
           eq_refl eq_refl eq_refl Hbefore eq_refl eq_refl eq_refl).
Defined.

Lemma malformed_payload_changes_nothing_witness :
  let env := project remote_published in
  let pluginConfig := config ["en"; "cs"] in
  (malformed no_item_id \/ parseKontentWebhookBody no_item_id = Null)
  /\ exists d,
       handleIncomingWebhook env no_item_id pluginConfig item_types empty_world
       = Returned tt {| nodes := nodes empty_world;
                        trace := trace empty_world ++ [Verbose d] |}
       /\ no_mutation [Verbose d].
Proof.
  intros env pluginConfig.
  assert (H : malformed no_item_id
              \/ parseKontentWebhookBody no_item_id = Null).
  { left. left. exists {| item_id := Undefined; item_language := Value "en" |}.
    split; [now left | reflexivity]. }
  split; [exact H|].
  exact (malformed_payload_changes_nothing
           env no_item_id pluginConfig item_types empty_world H).
Defined.

Lemma upsert_twice_is_upsert_once_witness :
  let env := project remote_published in
  let pluginConfig := config ["en"; "cs"] in
  body_items upsert_en = [variant "en"]
  /\ (let first := handleUpsertItem env upsert_en pluginConfig empty_world in
      let second :=
        handleUpsertItem env upsert_en pluginConfig (final_world first) in
      result_of second = result_of first
      /\ nodes (final_world second) = nodes (final_world first))
  /\ ((forall lang, In lang (languageCodenames pluginConfig) ->
         is_rejected (loadKontentItem env (item_id (variant "en")) lang
                                      pluginConfig true) = false) ->
      exists ids w1 w2,
        handleUpsertItem env upsert_en pluginConfig empty_world
        = Returned ids w1
        /\ handleUpsertItem env upsert_en pluginConfig w1 = Returned ids w2
        /\ nodes w2 = nodes w1)
  /\ forall (rawKontentItem : KontentItem) (lang : string) (s : list Node),
       let n := node_of env pluginConfig lang rawKontentItem in
       store_put n (store_put n s) = store_put n s.
Proof.
  intros env pluginConfig.
  split; [reflexivity|].
  apply (upsert_twice_is_upsert_once
           env upsert_en pluginConfig (variant "en") [] empty_world).
  reflexivity.
Defined.

Lemma empty_batch_is_accepted_then_throws_witness :
  let env := project remote_published in
  let pluginConfig := config ["en"; "cs"] in
  let webhook := envelope "delivery_preview" (Value "upsert") [] in
  let d := {| items := Value [] |} in
  let msg := {| api_name := Value "delivery_preview";
                project_id := Value "e1f2a3b4";
                operation := Value "upsert";
                message_type := Value "content_item_variant" |} in
  data webhook = Value d /\ items d = Value []
  /\ message webhook = Value msg
  /\ truthy (of_field (api_name msg)) = true
  /\ truthy (of_field (project_id msg)) = true
  /\ operation msg <> Null
  /\ isKontentSupportedWebhook msg (projectId pluginConfig) = true
  /\ parseKontentWebhookBody (Value webhook) = Value webhook
  /\ handleUpsertItem env (Value webhook) pluginConfig empty_world
     = Thrown (TypeError "language") empty_world
  /\ handleDeleteItem env (Value webhook) pluginConfig empty_world
     = Thrown (TypeError "language") empty_world
  /\ handleIncomingWebhook env (Value webhook) pluginConfig item_types
                           empty_world
     = Thrown (TypeError "language")
         {| nodes := nodes empty_world;
            trace := trace empty_world
                     ++ [Verbose (Handling (operation msg) (api_name msg))]
         |}.
Proof.
  intros env pluginConfig webhook d msg.
  assert (Hop : operation msg <> Null) by discriminate.
  destruct (empty_batch_is_accepted_then_throws
              env webhook d msg pluginConfig item_types empty_world
              eq_refl eq_refl eq_refl eq_refl eq_refl Hop)
    as (Hparse & Hup & Hdel & Hrun).
  repeat (split; [reflexivity|]).
  split; [exact Hop|]. split; [reflexivity|].
  split; [exact Hparse|]. split; [exact Hup|]. split; [exact Hdel|].
  exact (Hrun eq_refl).
Defined.

End ScenarioFacts.

(** ** What the computations add to the trace *)

Lemma emits_only_weaken {A : Type} (P Q : Event -> Prop) (m : M A) :
  (forall e, P e -> Q e) -> emits_only P m -> emits_only Q m.
Proof.
  intros HPQ Hm w. destruct (Hm w) as (added & E & F).
  exists added. split; [exact E|].
  eapply Forall_impl; [exact HPQ | exact F].
Qed.

Lemma emits_only_silent {A : Type} (P : Event -> Prop) (m : M A) :
  (forall w, final_world (m w) = w) -> emits_only P m.
Proof.
  intros H w. exists []. rewrite H, app_nil_r. now split.
Qed.

Lemma emits_only_ret {A : Type} (P : Event -> Prop) (a : A) :
  emits_only P (ret a).
Proof. now apply emits_only_silent. Qed.

Lemma emits_only_throw {A : Type} (P : Event -> Prop) (e : JsError) :
  emits_only P (@throw A e).
Proof. now apply emits_only_silent. Qed.

Lemma emits_only_bind {A B : Type} (P : Event -> Prop)
    (m : M A) (k : A -> M B) :
  emits_only P m -> (forall a, emits_only P (k a)) ->
  emits_only P (bind m k).
Proof.
  intros Hm Hk w. unfold bind.
  destruct (Hm w) as (first & E1 & F1).
  destruct (m w) as [a w1|e w1]; simpl in E1.
  - destruct (Hk a w1) as (second & E2 & F2).
    exists (first ++ second). split.
    + now rewrite E2, E1, app_assoc.
    + apply Forall_app. now split.
  - exists first. now split.
Qed.

Lemma emits_only_emit (P : Event -> Prop) (e : Event) :
  P e -> emits_only P (emit e).
Proof.
  intros H w. exists [e]. split; [reflexivity|]. now constructor.
Qed.

Lemma emits_only_createNode (P : Event -> Prop) (n : Node) :
  P (Created n) -> emits_only P (createNode n).
Proof.
  intros H w. exists [Created n]. split; [reflexivity|]. now constructor.
Qed.

Lemma emits_only_deleteNode (P : Event -> Prop) (n : Node) :
  P (Deleted (id n)) -> emits_only P (deleteNode n).
Proof.
  intros H w. exists [Deleted (id n)]. split; [reflexivity|].
  now constructor.
Qed.

Lemma emits_only_for_of {A B : Type} (P : Event -> Prop)
    (xs : list A) (body : A -> M (list B)) :
  (forall x, emits_only P (body x)) -> emits_only P (for_of xs body).
Proof.
  intros Hbody. induction xs as [|x xs IH]; simpl.
  - apply emits_only_ret.
  - apply emits_only_bind; [apply Hbody|]. intros pushed.
    apply emits_only_bind; [exact IH|]. intros more. apply emits_only_ret.
Qed.

Section TraceFacts.

Variable env : Collaborators.

Lemma emits_only_materialize (P : Event -> Prop)
    (kontentItem : KontentItem) (modularKontent : list (string * KontentItem))
    (pluginConfig : CustomPluginOptions) (lang : string) :
  (forall n, P (Created n)) ->
  emits_only P (materialize env kontentItem modularKontent pluginConfig lang).
Proof.
  intros HP w. rewrite materialize_run. cbv zeta. cbn [final_world trace].
  eexists. split; [reflexivity|].
  apply Forall_forall. intros e He. apply in_map_iff in He.
  destruct He as (n & <- & _). apply HP.
Qed.

Lemma emits_only_first_item (P : Event -> Prop)
    (webhookBody : Nullable IWebhookDeliveryResponse) :
  emits_only P (first_item webhookBody).
Proof.
  apply emits_only_silent. intros w. unfold first_item.
  destruct webhookBody as [| |b]; try reflexivity.
  destruct (data b) as [| |d]; try reflexivity.
  destruct (items d); reflexivity.
Qed.

Lemma emits_only_load (P : Event -> Prop) (itemId : Field) (lang : string)
    (pluginConfig : CustomPluginOptions) (wait : bool) :
  P (Fetched itemId lang) ->
  emits_only P (client_loadKontentItem env itemId lang pluginConfig wait).
Proof.
  intros HP. unfold client_loadKontentItem.
  apply emits_only_bind; [now apply emits_only_emit|].
  intros _.
  destruct (loadKontentItem env itemId lang pluginConfig wait);
    [apply emits_only_ret | apply emits_only_throw].
Qed.

Lemma handleUpsertItem_events
    (webhookBody : Nullable IWebhookDeliveryResponse)
    (pluginConfig : CustomPluginOptions) :
  emits_only upsert_event (handleUpsertItem env webhookBody pluginConfig).
Proof.
  unfold handleUpsertItem.
  apply emits_only_bind; [apply emits_only_first_item|].
  intros [itemInfo|]; [|apply emits_only_throw].
  destruct (negb _).
  - apply emits_only_bind; [now apply emits_only_emit|].
    intros _. apply emits_only_ret.
  - apply emits_only_for_of. intros lang. unfold upsert_language.
    apply emits_only_bind; [now apply emits_only_load|].
    intros [[kontentItem|] modularKontent]; cbn [fst snd].
    + now apply emits_only_materialize.
    + apply emits_only_bind; [now apply emits_only_emit|].
      intros _. apply emits_only_ret.
Qed.

Lemma emits_only_remove_component (P : Event -> Prop)
    (kontentItemNodes : list Node) (node : Node) (codename : string) :
  (forall i, P (Deleted i)) ->
  emits_only P (remove_component kontentItemNodes node codename).
Proof.
  intros HP. unfold remove_component.
  destruct (find _ _) as [candidate|]; [|apply emits_only_ret].
  apply emits_only_bind.
  - unfold isContentComponent.
    destruct (node_system candidate);
      [apply emits_only_ret | apply emits_only_throw].
  - intros [|]; [|apply emits_only_ret].
    apply emits_only_bind; [apply emits_only_deleteNode, HP|].
    intros _. apply emits_only_ret.
Qed.

Lemma handleDeleteItem_events
    (webhookBody : Nullable IWebhookDeliveryResponse)
    (pluginConfig : CustomPluginOptions) :
  emits_only delete_event (handleDeleteItem env webhookBody pluginConfig).
Proof.
  unfold handleDeleteItem.
  apply emits_only_bind; [apply emits_only_first_item|].
  intros [itemInfo|]; [|apply emits_only_throw].
  destruct (negb _).
  - apply emits_only_bind; [now apply emits_only_emit|].
    intros _. apply emits_only_ret.
  - apply emits_only_for_of. intros lang. unfold delete_language.
    apply emits_only_bind; [now apply emits_only_load|].
    intros [[kontentItem|] modularKontent]; cbn [fst snd].
    + now apply emits_only_materialize.
    + apply emits_only_bind; [now apply emits_only_silent|].
      intros node.
      apply emits_only_bind; [now apply emits_only_silent|].
      intros allNodes.
      destruct node as [node|]; [|apply emits_only_throw].
      destruct (node_elements node) as [els|]; [|apply emits_only_throw].
      apply emits_only_bind.
      * apply emits_only_for_of. intros codename.
        now apply emits_only_remove_component.
      * intros removed.
        apply emits_only_bind; [now apply emits_only_deleteNode|].
        intros _. apply emits_only_ret.
Qed.

Lemma touch_propagation_events (P : Event -> Prop)
    (pluginConfig : CustomPluginOptions)
    (itemTypes processedItemIds : list string) :
  (forall i, P (Touched i)) ->
  emits_only P
    (touch_propagation env pluginConfig itemTypes processedItemIds).
Proof.
  intros HP w. rewrite touch_propagation_run. cbn [final_world trace].
  eexists. split; [reflexivity|].
  assert (Hty : forall ty s, Forall P (touches_of_type ty s)).
  { intros ty s. apply Forall_forall. intros e He.
    apply in_map_iff in He. destruct He as (n & <- & _). apply HP. }
  apply Forall_app; split; [|apply Forall_app; split].
  - apply Forall_forall. intros e He. apply item_touches_In in He.
    destruct He as (n & -> & _). apply HP.
  - destruct (includeTaxonomies pluginConfig); [apply Hty | constructor].
  - destruct (includeTypes pluginConfig); [apply Hty | constructor].
Qed.

End TraceFacts.

(** ** The supported check and the envelope check, in full *)

Lemma field_is_true (f : Field) (s : string) :
  field_is f s = true <-> f = Value s.
Proof.
  destruct f as [| |t]; simpl; try (split; discriminate).
  rewrite String.eqb_eq. split; [now intros -> | now intros [= ->]].
Qed.

Lemma supported_iff (message : IWebhookMessage) (projectId : string) :
  isKontentSupportedWebhook message projectId = true
  <-> project_id message = Value projectId
      /\ message_type message = Value "content_item_variant"
      /\ ((api_name message = Value "delivery_preview"
           /\ (operation message = Value "upsert"
               \/ operation message = Value "archive"
               \/ operation message = Value "restore"))
          \/ (api_name message = Value "delivery_production"
              /\ (operation message = Value "publish"
                  \/ operation message = Value "unpublish"))).
Proof.
  unfold isKontentSupportedWebhook, includes. cbn [existsb].
  rewrite !andb_true_iff, !orb_true_iff, !andb_true_iff, !orb_true_iff.
  rewrite !field_is_true.
  intuition discriminate.
Qed.

(** X1: the table of supported messages: the configured project, the variant
    message type, and one of the five pairs of API and operation. *)
Theorem supported_webhook_table (message : IWebhookMessage)
    (projectId : string) :
  isKontentSupportedWebhook message projectId = true
  <-> project_id message = Value projectId
      /\ message_type message = Value "content_item_variant"
      /\ ((api_name message = Value "delivery_preview"
           /\ (operation message = Value "upsert"
               \/ operation message = Value "archive"
               \/ operation message = Value "restore"))
          \/ (api_name message = Value "delivery_production"
              /\ (operation message = Value "publish"
                  \/ operation message = Value "unpublish"))).
Proof. apply supported_iff. Qed.

Lemma supported_is_classified (message : IWebhookMessage)
    (projectId : string) :
  isKontentSupportedWebhook message projectId = true ->
  (upsert_classified message = true /\ delete_classified message = false)
  \/ (upsert_classified message = false /\ delete_classified message = true).
Proof.
  intros H. apply supported_iff in H.
  destruct H as (_ & _ & [[Ha Ho]|[Ha Ho]]);
    unfold upsert_classified, delete_classified; rewrite Ha;
    repeat (destruct Ho as [Ho|Ho]); rewrite Ho; cbn; auto.
Qed.

(** X2: the envelope check in full: a body is returned, unchanged, exactly
    when every item of its batch has a non-empty id and language, its
    api name and project id are non-empty strings and its operation is
    not [null]; every other body yields [null]. *)
Theorem envelope_check_contract
    (webhookBody : Nullable IWebhookDeliveryResponse) :
  (parseKontentWebhookBody webhookBody = webhookBody
   \/ parseKontentWebhookBody webhookBody = Null)
  /\ forall webhook,
       parseKontentWebhookBody webhookBody = Value webhook
       <-> webhookBody = Value webhook
           /\ exists d l msg api project,
               data webhook = Value d /\ items d = Value l
               /\ (forall item, In item l ->
                     exists i language,
                       item_id item = Value i /\ i <> ""
                       /\ item_language item = Value language
                       /\ language <> "")
               /\ message webhook = Value msg
               /\ api_name msg = Value api /\ api <> ""
               /\ project_id msg = Value project /\ project <> ""
               /\ operation msg <> Null.
Proof.
  assert (Hstr : forall f : Field,
             truthy (of_field f) = true <-> exists s, f = Value s /\ s <> "").
  { intros [| |s]; simpl.
    - split; [discriminate | intros (s & E & _); discriminate].
    - split; [discriminate | intros (s & E & _); discriminate].
    - rewrite negb_true_iff, String.eqb_neq. split.
      + intros H. now exists s.
      + now intros (s' & [= <-] & H). }
  split.
  - rewrite parse_unfold. destruct (_ && _); auto.
  - intros webhook. split.
    + intros H. destruct (parse_accepted_inv _ _ H)
        as (-> & d & l & msg & Ed & El & Ef & Em & Ea & Ep & Eo).
      split; [reflexivity|].
      apply Hstr in Ea, Ep. destruct Ea as (api & Ea & Ha).
      destruct Ep as (project & Ep & Hp).
      exists d, l, msg, api, project. repeat split; auto.
      intros item Hin. rewrite forallb_forall in Ef.
      apply Ef, item_well_formed_iff in Hin. destruct Hin as [Hi Hl].
      apply Hstr in Hi, Hl. destruct Hi as (i & Hi & Hi').
      destruct Hl as (language & Hl & Hl'). now exists i, language.
    + intros (-> & d & l & msg & api & project
              & Ed & El & Hitems & Em & Ea & Ha & Ep & Hp & Eo).
      apply (parse_accepts webhook d l msg); auto.
      * apply forallb_forall. intros item Hin.
        apply item_well_formed_iff.
        destruct (Hitems item Hin) as (i & language & Hi & Hi' & Hl & Hl').
        split; apply Hstr; eauto.
      * apply Hstr. eauto.
      * apply Hstr. eauto.
Qed.

Section FurtherFacts.

Variable env : Collaborators.

(** X3: an event of another project, or of another message type, is dropped
    after one verbose diagnostic: the store is unchanged and nothing is
    fetched, created, deleted or touched. *)
Theorem foreign_event_changes_nothing
    (webhookBody : Nullable IWebhookDeliveryResponse)
    (pluginConfig : CustomPluginOptions) (itemTypes : list string)
    (w : World) :
  opt_chain (opt_chain webhookBody message) project_id
    <> Value (projectId pluginConfig)
  \/ opt_chain (opt_chain webhookBody message) message_type
       <> Value "content_item_variant" ->
  exists d,
    (d = NotFromKontent \/ d = NotHandledByPlugin)
    /\ handleIncomingWebhook env webhookBody pluginConfig itemTypes w
       = Returned tt {| nodes := nodes w; trace := trace w ++ [Verbose d] |}.
Proof.
  intros Hforeign. unfold handleIncomingWebhook.
  destruct (parseKontentWebhookBody webhookBody) as [| |webhook] eqn:P.
  - now destruct (parse_never_undefined webhookBody).
  - exists NotFromKontent. split; [now left | reflexivity].
  - destruct (parse_accepted_inv _ _ P) as (-> & d & l & msg & _ & _ & _ & Em & _).
    rewrite Em. simpl in Hforeign. rewrite Em in Hforeign. simpl in Hforeign.
    destruct (isKontentSupportedWebhook msg (projectId pluginConfig)) eqn:Hsup.
    + apply supported_iff in Hsup.
      destruct Hsup as (Hp & Ht & _). destruct Hforeign; contradiction.
    + exists NotHandledByPlugin. split; [now right | reflexivity].
Qed.

(** *** What [handleIncomingWebhook] adds to the trace *)

Lemma handleIncomingWebhook_events (P : Event -> Prop)
    (webhookBody : Nullable IWebhookDeliveryResponse)
    (pluginConfig : CustomPluginOptions) (itemTypes : list string) :
  P (Verbose NotFromKontent) ->
  P (Verbose NotHandledByPlugin) ->
  (forall op api, P (Verbose (Handling op api))) ->
  (forall n, P (Warn (MoreThanOneItem n))) ->
  (forall e, upsert_event e -> P e) ->
  (forall e, delete_event e -> P e) ->
  emits_only P (touch_propagation env pluginConfig itemTypes []) ->
  emits_only P (handleIncomingWebhook env webhookBody pluginConfig itemTypes).
Proof.
  intros Hforeign Hdropped Hhandling Hwarn Hup Hdel Htouch.
  assert (Hupsert : emits_only P
            (processedIds <- handleUpsertItem env webhookBody pluginConfig ;;
             let _ := Array_concat [] processedIds in ret tt)).
  { apply emits_only_bind.
    - eapply emits_only_weaken; [exact Hup | apply handleUpsertItem_events].
    - intros ids. apply emits_only_ret. }
  assert (Hdelete : emits_only P
            (processedIds <- handleDeleteItem env webhookBody pluginConfig ;;
             let _ := Array_concat [] processedIds in ret tt)).
  { apply emits_only_bind.
    - eapply emits_only_weaken; [exact Hdel | apply handleDeleteItem_events].
    - intros ids. apply emits_only_ret. }
  unfold handleIncomingWebhook.
  destruct (parseKontentWebhookBody webhookBody) as [| |webhook].
  - apply emits_only_throw.
  - now apply emits_only_emit.
  - destruct (message webhook) as [| |msg]; try apply emits_only_throw.
    destruct (isKontentSupportedWebhook msg (projectId pluginConfig)) eqn:Hsup;
      cbn [negb]; [|now apply emits_only_emit].
    apply emits_only_bind; [now apply emits_only_emit|]. intros _.
    apply emits_only_bind.
    { apply emits_only_silent. intros w. unfold items_length.
      destruct (data webhook) as [| |d]; try reflexivity.
      destruct (items d); reflexivity. }
    intros n. apply emits_only_bind.
    { destruct (1 <? n)%nat; [now apply emits_only_emit | apply emits_only_ret]. }
    intros _. cbv zeta.
    apply supported_iff in Hsup.
    destruct Hsup as (_ & _ & [[Ha _]|[Ha _]]); rewrite Ha;
      cbn [field_is String.eqb Ascii.eqb Bool.eqb].
    + apply emits_only_bind.
      { destruct (_ || _); [exact Hupsert | apply emits_only_ret]. }
      intros _. apply emits_only_bind; [|intros _; exact Htouch].
      destruct (field_is _ _); [exact Hdelete | apply emits_only_ret].
    + apply emits_only_bind.
      { destruct (field_is _ _); [exact Hupsert | apply emits_only_ret]. }
      intros _. apply emits_only_bind; [|intros _; exact Htouch].
      destruct (field_is _ _); [exact Hdelete | apply emits_only_ret].
Qed.

(** X4: the final [else] of [handleIncomingWebhook] is never reached: a
    message that passes the supported check names one of the two APIs,
    so neither of the two diagnostics of that branch is ever emitted. *)
Theorem unsupported_dump_is_unreachable
    (webhookBody : Nullable IWebhookDeliveryResponse)
    (pluginConfig : CustomPluginOptions) (itemTypes : list string) :
  emits_only (fun e => ~ unsupported_dump e)
    (handleIncomingWebhook env webhookBody pluginConfig itemTypes).
Proof.
  apply handleIncomingWebhook_events; try (intros; exact (fun H => H)).
  - intros [[]| | | | |]; simpl; tauto.
  - intros [[]| | | | |]; simpl; tauto.
  - apply touch_propagation_events. intros i H. exact H.
Qed.

(** X5: the upsert handler only reads remotely, logs and creates: whatever
    the body and whether it returns or throws, it deletes no node,
    touches none and warns about nothing. *)
Theorem upsert_never_deletes_or_touches
    (webhookBody : Nullable IWebhookDeliveryResponse)
    (pluginConfig : CustomPluginOptions) :
  emits_only
    (fun e => (forall i, e <> Deleted i) /\ (forall i, e <> Touched i)
              /\ forall d, e <> Warn d)
    (handleUpsertItem env webhookBody pluginConfig).
Proof.
  eapply emits_only_weaken; [|apply handleUpsertItem_events].
  intros [[]| | | | |]; simpl; try tauto; repeat split; discriminate.
Qed.

(** *** The dispatch *)

Lemma handleIncomingWebhook_dispatch
    (webhook : IWebhookDeliveryResponse) (msg : IWebhookMessage)
    (pluginConfig : CustomPluginOptions) (itemTypes : list string)
    (w : World) :
  parseKontentWebhookBody (Value webhook) = Value webhook ->
  message webhook = Value msg ->
  isKontentSupportedWebhook msg (projectId pluginConfig) = true ->
  handleIncomingWebhook env (Value webhook) pluginConfig itemTypes w
  = (announce webhook msg ;;;
     (if upsert_classified msg
      then handleUpsertItem env (Value webhook) pluginConfig
      else handleDeleteItem env (Value webhook) pluginConfig) ;;;
     touch_propagation env pluginConfig itemTypes []) w.
Proof.
  intros Hparse Hmsg Hsup.
  unfold handleIncomingWebhook. rewrite Hparse, Hmsg, Hsup. cbn [negb].
  apply supported_iff in Hsup.
  unfold announce, upsert_classified.
  destruct Hsup as (_ & _ & [[Ha Ho]|[Ha Ho]]); rewrite Ha;
    repeat (destruct Ho as [Ho|Ho]); rewrite Ho;
    cbn [field_is String.eqb Ascii.eqb Bool.eqb orb andb];
    unfold bind, verbose, emit;
    (destruct (items_length webhook _) as [n w1|e w1]; [|reflexivity]);
    (destruct ((if (1 <? n)%nat then warn (MoreThanOneItem n) else ret tt) w1)
       as [u w2|e w2]; [|reflexivity]);
    unfold ret at 1;
    try (destruct (handleUpsertItem env (Value webhook) pluginConfig w2)
           as [ids w3|e w3]; reflexivity);
    try (destruct (handleDeleteItem env (Value webhook) pluginConfig w2)
           as [ids w3|e w3]; reflexivity).
Qed.

(** X6: a supported event runs exactly one of the two handlers, the upsert
    handler for upsert, restore and publish and the delete handler for
    archive and unpublish, between the announcing diagnostics and the
    touch stage; the touch stage receives the empty list. *)
Theorem supported_event_runs_one_handler
    (webhook : IWebhookDeliveryResponse) (msg : IWebhookMessage)
    (pluginConfig : CustomPluginOptions) (itemTypes : list string)
    (w : World) :
  parseKontentWebhookBody (Value webhook) = Value webhook ->
  message webhook = Value msg ->
  isKontentSupportedWebhook msg (projectId pluginConfig) = true ->
  upsert_classified msg = negb (delete_classified msg)
  /\ handleIncomingWebhook env (Value webhook) pluginConfig itemTypes w
     = (announce webhook msg ;;;
        (if upsert_classified msg
         then handleUpsertItem env (Value webhook) pluginConfig
         else handleDeleteItem env (Value webhook) pluginConfig) ;;;
        touch_propagation env pluginConfig itemTypes []) w.
Proof.
  intros Hparse Hmsg Hsup. split.
  - destruct (supported_is_classified _ _ Hsup) as [[-> ->]|[-> ->]];
      reflexivity.
  - now apply handleIncomingWebhook_dispatch.
Qed.

(** X7: with neither taxonomy nor type inclusion configured,
    [handleIncomingWebhook] calls [touchNode] for no node at all,
    whatever the event and whatever the handlers processed. *)
Theorem no_touch_without_inclusion
    (webhookBody : Nullable IWebhookDeliveryResponse)
    (pluginConfig : CustomPluginOptions) (itemTypes : list string) :
  includeTaxonomies pluginConfig = false ->
  includeTypes pluginConfig = false ->
  emits_only (fun e => ~ is_touch e)
    (handleIncomingWebhook env webhookBody pluginConfig itemTypes).
Proof.
  intros Htax Hty.
  apply handleIncomingWebhook_events; try (intros; exact (fun H => H)).
  - intros [[]| | | | |]; simpl; tauto.
  - intros [[]| | | | |]; simpl; tauto.
  - intros w. rewrite touch_propagation_run, Htax, Hty, item_touches_nil.
    exists []. split; [reflexivity | constructor].
Qed.

(** *** The upsert handler *)

Lemma handlers_throw_without_first_item
    (webhookBody : Nullable IWebhookDeliveryResponse)
    (pluginConfig : CustomPluginOptions) (w : World) :
  body_items webhookBody = [] ->
  exists reading,
    handleUpsertItem env webhookBody pluginConfig w
    = Thrown (TypeError reading) w
    /\ handleDeleteItem env webhookBody pluginConfig w
       = Thrown (TypeError reading) w.
Proof.
  unfold body_items, handleUpsertItem, handleDeleteItem, first_item, bind.
  destruct webhookBody as [| |b]; simpl;
    try (intros _; eexists; split; reflexivity).
  destruct (data b) as [| |d]; simpl;
    try (intros _; eexists; split; reflexivity).
  destruct (items d) as [| |l]; simpl;
    try (intros _; eexists; split; reflexivity).
  intros ->. eexists; split; reflexivity.
Qed.

Lemma first_rejection_some (pluginConfig : CustomPluginOptions)
    (itemId : Field) (langs : list string) (reason : JsError) :
  first_rejection env pluginConfig itemId langs = Some reason ->
  exists lang,
    In lang langs
    /\ loadKontentItem env itemId lang pluginConfig true = Rejected reason.
Proof.
  induction langs as [|lang langs IH]; simpl; [discriminate|].
  destruct (loadKontentItem env itemId lang pluginConfig true)
    as [result|reason'] eqn:E.
  - intros H. destruct (IH H) as (l & Hl & El). exists l. split; auto.
  - intros [= ->]. exists lang. split; auto.
Qed.

(** X8: the upsert handler returns normally exactly when the body has a
    first item and, if the language of that item is configured, the
    fetch of no configured language is rejected.  What it throws
    otherwise is a TypeError, before any effect, when the first item is
    missing (absent body, no data, no items, empty batch), and else the
    rejection of a fetch. *)
Theorem upsert_returns_iff_first_item
    (webhookBody : Nullable IWebhookDeliveryResponse)
    (pluginConfig : CustomPluginOptions) (w : World) :
  ((exists ids w',
      handleUpsertItem env webhookBody pluginConfig w = Returned ids w')
   <-> exists itemInfo rest,
         body_items webhookBody = itemInfo :: rest
         /\ (includes (languageCodenames pluginConfig)
                      (item_language itemInfo) = true ->
             forall lang, In lang (languageCodenames pluginConfig) ->
               is_rejected (loadKontentItem env (item_id itemInfo) lang
                                            pluginConfig true) = false))
  /\ forall e w',
       handleUpsertItem env webhookBody pluginConfig w = Thrown e w' ->
       (body_items webhookBody = []
        /\ w' = w /\ exists reading, e = TypeError reading)
       \/ exists itemInfo rest lang,
            body_items webhookBody = itemInfo :: rest
            /\ In lang (languageCodenames pluginConfig)
            /\ loadKontentItem env (item_id itemInfo) lang pluginConfig true
               = Rejected e.
Proof.
  destruct (body_items webhookBody) as [|itemInfo rest] eqn:Hitems.
  - destruct (handlers_throw_without_first_item
                webhookBody pluginConfig w Hitems) as (reading & Hup & _).
    rewrite Hup. split.
    + split.
      * intros (ids & w' & H). discriminate.
      * intros (i & r & H & _). discriminate.
    + intros e w' [= <- <-]. left. repeat split; eauto.
  - destruct (includes (languageCodenames pluginConfig)
                       (item_language itemInfo)) eqn:Hlang.
    + rewrite (handleUpsertItem_run _ _ _ _ _ w Hitems Hlang). cbv zeta.
      destruct (first_rejection env pluginConfig (item_id itemInfo)
                                (languageCodenames pluginConfig))
        as [reason|] eqn:Hrej; cbn [finish].
      * split.
        -- split; [intros (ids & w' & H); discriminate|].
           intros (i & r & [= <- <-] & H).
           apply first_rejection_none in H; [|exact Hlang]. congruence.
        -- intros e w' [= <- <-]. right.
           destruct (first_rejection_some _ _ _ _ Hrej) as (lang & Hin & E).
           now exists itemInfo, rest, lang.
      * split; [|intros e w' H; discriminate].
        split; [|intros _; eauto].
        intros _. exists itemInfo, rest. split; [reflexivity|].
        intros _. now apply first_rejection_none.
    + destruct (handlers_ignore_unconfigured_language
                  env _ pluginConfig _ _ w Hitems Hlang) as [-> _].
      split; [|intros e w' H; discriminate].
      split; [|intros _; eauto].
      intros _. exists itemInfo, rest. split; [reflexivity|].
      intros H. rewrite Hlang in H. discriminate.
Qed.

(** X9: only the first item of the batch matters: two bodies with the same
    first item are handled alike by both handlers. *)
Theorem handlers_use_only_first_item
    (first second : Nullable IWebhookDeliveryResponse)
    (pluginConfig : CustomPluginOptions)
    (itemInfo : IWebhookItem) (rest rest' : list IWebhookItem) (w : World) :
  body_items first = itemInfo :: rest ->
  body_items second = itemInfo :: rest' ->
  handleUpsertItem env first pluginConfig w
  = handleUpsertItem env second pluginConfig w
  /\ handleDeleteItem env first pluginConfig w
     = handleDeleteItem env second pluginConfig w.
Proof.
  intros H1 H2. unfold handleUpsertItem, handleDeleteItem, bind.
  now rewrite (first_item_run _ _ _ _ H1), (first_item_run _ _ _ _ H2).
Qed.

Lemma upserted_nodes_In (pluginConfig : CustomPluginOptions)
    (itemId : Field) (langs : list string) (lang : string)
    (kontentItem : KontentItem) (modularKontent : list (string * KontentItem))
    (n : Node) :
  (forall l, In l langs ->
     is_rejected (loadKontentItem env itemId l pluginConfig true) = false) ->
  In lang langs ->
  loadKontentItem env itemId lang pluginConfig true
  = Resolved (Some kontentItem, modularKontent) ->
  In n (materialized_nodes env pluginConfig lang kontentItem modularKontent) ->
  In n (upserted_nodes env pluginConfig itemId langs).
Proof.
  intros Hres Hlang Hload Hn.
  induction langs as [|l langs IH]; [contradiction|].
  cbn [upserted_nodes].
  pose proof (Hres l (or_introl eq_refl)) as Hl.
  assert (IH' : In lang langs ->
                In n (upserted_nodes env pluginConfig itemId langs)).
  { intros H. apply IH; [|exact H]. intros l' Hl'. apply Hres. now right. }
  destruct Hlang as [->|Hlang].
  - rewrite Hload. apply in_or_app. now left.
  - destruct (loadKontentItem env itemId l pluginConfig true)
      as [[[k|] m]|reason]; [| |discriminate]; auto.
    apply in_or_app. right. auto.
Qed.

(** X10: an upsert whose language is configured keeps every id that was
    stored before, however it ends.  When no fetch is rejected it
    returns, every returned id is stored, and for each configured
    language that resolves to a snapshot of the item a node created by
    this call is stored under the id of (item, language) and that id is
    among the returned ones. *)
Theorem upsert_stores_what_it_returns
    (webhookBody : Nullable IWebhookDeliveryResponse)
    (pluginConfig : CustomPluginOptions)
    (itemInfo : IWebhookItem) (rest : list IWebhookItem) (w : World) :
  body_items webhookBody = itemInfo :: rest ->
  includes (languageCodenames pluginConfig) (item_language itemInfo) = true ->
  (forall i,
     In i (map id (nodes w)) ->
     In i (map id (nodes (final_world
                            (handleUpsertItem env webhookBody pluginConfig
                                              w)))))
  /\ ((forall lang, In lang (languageCodenames pluginConfig) ->
         is_rejected (loadKontentItem env (item_id itemInfo) lang
                                      pluginConfig true) = false) ->
      exists ids w',
        handleUpsertItem env webhookBody pluginConfig w = Returned ids w'
        /\ (forall i, In i ids -> In i (map id (nodes w')))
        /\ (forall i, In i (map id (nodes w)) -> In i (map id (nodes w')))
        /\ forall lang kontentItem modularKontent,
             In lang (languageCodenames pluginConfig) ->
             loadKontentItem env (item_id itemInfo) lang pluginConfig true
             = Resolved (Some kontentItem, modularKontent) ->
             item_id itemInfo = Value (sys_id (system kontentItem)) ->
             In (node_id_for env (item_id itemInfo) lang) ids
             /\ exists n,
                  store_get (node_id_for env (item_id itemInfo) lang)
                            (nodes w') = Some n
                  /\ In n (upserted_nodes env pluginConfig (item_id itemInfo)
                                          (languageCodenames pluginConfig))).
Proof.
  intros Hitems Hlang.
  rewrite (handleUpsertItem_run _ _ _ _ _ w Hitems Hlang). cbv zeta.
  set (ns := upserted_nodes env pluginConfig (item_id itemInfo)
                            (languageCodenames pluginConfig)).
  split.
  - intros i Hi.
    destruct (first_rejection env pluginConfig (item_id itemInfo)
                              (languageCodenames pluginConfig));
      cbn [finish final_world nodes]; now apply store_put_all_keeps_ids.
  - intros Hres.
    rewrite (proj2 (first_rejection_none env _ _ _) Hres). cbn [finish].
    do 2 eexists. split; [reflexivity|]. cbn [nodes].
    split; [|split].
    + intros i Hi. apply in_map_iff in Hi. destruct Hi as (n & <- & Hn).
      now apply store_put_all_has_ids.
    + intros i. apply store_put_all_keeps_ids.
    + intros lang kontentItem modularKontent Hin Hload Hid.
      assert (Hn : In (node_of env pluginConfig lang kontentItem) ns).
      { apply (upserted_nodes_In _ _ _ lang kontentItem modularKontent);
          auto. now left. }
      assert (E : id (node_of env pluginConfig lang kontentItem)
                  = node_id_for env (item_id itemInfo) lang).
      { unfold node_of, node_id_for. simpl. now rewrite Hid. }
      split.
      * rewrite <- E. now apply in_map.
      * destruct (store_get_put_all ns (nodes w) _ Hn)
          as (n' & Hn' & _ & Hget).
        exists n'. rewrite <- E. now split.
Qed.

(** X11: when nothing resolves remotely for any configured language, an
    upsert leaves the store as it is and returns no id; per language it
    only fetches and logs that the variant was not found. *)
Theorem upsert_of_unresolved_item_changes_nothing
    (webhookBody : Nullable IWebhookDeliveryResponse)
    (pluginConfig : CustomPluginOptions)
    (itemInfo : IWebhookItem) (rest : list IWebhookItem) (w : World) :
  body_items webhookBody = itemInfo :: rest ->
  includes (languageCodenames pluginConfig) (item_language itemInfo) = true ->
  (forall lang, In lang (languageCodenames pluginConfig) ->
     is_absent (loadKontentItem env (item_id itemInfo) lang pluginConfig true)
     = true) ->
  handleUpsertItem env webhookBody pluginConfig w
  = Returned []
      {| nodes := nodes w;
         trace := trace w
                  ++ flat_map
                       (fun lang =>
                          [Fetched (item_id itemInfo) lang;
                           Verbose (VariantNotFoundForUpdate
                                      (item_id itemInfo) lang)])
                       (languageCodenames pluginConfig) |}.
Proof.
  intros Hitems Hlang Hnone.
  rewrite (handleUpsertItem_run _ _ _ _ _ w Hitems Hlang). cbv zeta.
  assert (H : upserted_nodes env pluginConfig (item_id itemInfo)
                             (languageCodenames pluginConfig) = []
              /\ upsert_events env pluginConfig (item_id itemInfo)
                               (languageCodenames pluginConfig)
                 = flat_map
                     (fun lang =>
                        [Fetched (item_id itemInfo) lang;
                         Verbose (VariantNotFoundForUpdate
                                    (item_id itemInfo) lang)])
                     (languageCodenames pluginConfig)).
  { clear Hlang. revert Hnone.
    generalize (languageCodenames pluginConfig) as langs.
    induction langs as [|lang langs IH]; intros Hnone; [now split|].
    destruct IH as [IH1 IH2]; [intros l Hl; apply Hnone; now right|].
    cbn [flat_map upserted_nodes upsert_events]. rewrite IH1, IH2.
    specialize (Hnone lang (or_introl eq_refl)).
    destruct (loadKontentItem env (item_id itemInfo) lang pluginConfig true)
      as [[[k|] m]|reason]; try discriminate. now split. }
  destruct H as [Hns Hev]. rewrite Hns, Hev.
  assert (Hrej : first_rejection env pluginConfig (item_id itemInfo)
                                 (languageCodenames pluginConfig) = None).
  { apply first_rejection_none. intros lang Hin.
    specialize (Hnone lang Hin).
    destruct (loadKontentItem env (item_id itemInfo) lang pluginConfig true)
      as [[[k|] m]|reason]; try discriminate. reflexivity. }
  rewrite Hrej. reflexivity.
Qed.

(** *** The delete handler *)

Lemma for_of_ext {A B : Type} (f g : A -> M (list B)) (xs : list A)
    (w : World) :
  (forall x w', In x xs -> f x w' = g x w') ->
  for_of xs f w = for_of xs g w.
Proof.
  revert w. induction xs as [|x xs IH]; intros w H; [reflexivity|].
  simpl. unfold bind. rewrite (H x w (or_introl eq_refl)).
  destruct (g x w) as [pushed w1|e w1]; [|reflexivity].
  rewrite IH; [reflexivity|]. intros y w' Hy. apply H. now right.
Qed.

(** X12: when no configured language resolves without a snapshot (each
    still resolves to a snapshot, or its fetch is rejected), the delete
    handler does what the upsert handler does: same result or same
    rejection, same store, same events. *)
Theorem delete_with_fallbacks_is_upsert
    (webhookBody : Nullable IWebhookDeliveryResponse)
    (pluginConfig : CustomPluginOptions)
    (itemInfo : IWebhookItem) (rest : list IWebhookItem) (w : World) :
  body_items webhookBody = itemInfo :: rest ->
  (forall lang, In lang (languageCodenames pluginConfig) ->
     is_absent (loadKontentItem env (item_id itemInfo) lang pluginConfig true)
     = false) ->
  handleDeleteItem env webhookBody pluginConfig w
  = handleUpsertItem env webhookBody pluginConfig w.
Proof.
  intros Hitems Hsome. unfold handleDeleteItem, handleUpsertItem, bind.
  rewrite (first_item_run _ _ _ _ Hitems).
  destruct (negb _); [reflexivity|].
  apply for_of_ext. intros lang w' Hlang.
  unfold delete_language, upsert_language, bind, client_loadKontentItem.
  cbn [emit ret]. specialize (Hsome lang Hlang).
  destruct (loadKontentItem env (item_id itemInfo) lang pluginConfig true)
    as [[[kontentItem|] modularKontent]|reason];
    [reflexivity | discriminate | reflexivity].
Qed.

Lemma store_remove_all_is_without (ids : list string) (s : list Node) :
  store_remove_all ids s = store_without ids s.
Proof.
  revert s. induction ids as [|i ids IH]; intros s.
  - unfold store_without. simpl. induction s as [|n s IHs]; simpl; congruence.
  - simpl. rewrite IH. unfold store_without, store_remove.
    induction s as [|n s IHs]; [reflexivity|]. simpl.
    destruct (id n =? i); simpl; [exact IHs|].
    destruct (existsb (String.eqb (id n)) ids); simpl; now rewrite IHs.
Qed.

Lemma store_without_ids (ids : list string) (s : list Node) (i : string) :
  In i (map id (store_without ids s)) <-> In i (map id s) /\ ~ In i ids.
Proof.
  unfold store_without. rewrite !in_map_iff. split.
  - intros (n & <- & Hn). apply filter_In in Hn. destruct Hn as [Hn Hb].
    split; [now exists n|]. intros Hin.
    apply negb_true_iff in Hb.
    assert (existsb (String.eqb (id n)) ids = true); [|congruence].
    apply existsb_exists. exists (id n). split; [exact Hin|].
    apply String.eqb_refl.
  - intros [(n & <- & Hn) Hout]. exists n. split; [reflexivity|].
    apply filter_In. split; [exact Hn|]. apply negb_true_iff.
    destruct (existsb (String.eqb (id n)) ids) eqn:E; [|reflexivity].
    apply existsb_exists in E. destruct E as (j & Hj & E).
    apply String.eqb_eq in E. subst j. contradiction.
Qed.

Lemma store_get_without (ids : list string) (s : list Node) (i : string) :
  In i ids -> store_get i (store_without ids s) = None.
Proof.
  intros Hin. unfold store_get.
  destruct (find (fun m => id m =? i) (store_without ids s)) as [n|] eqn:F;
    [|reflexivity].
  apply find_some in F. destruct F as [Hn E]. apply String.eqb_eq in E.
  assert (H : In i (map id (store_without ids s))).
  { rewrite <- E. now apply in_map. }
  apply store_without_ids in H. now destruct H.
Qed.

Lemma delete_language_removes_returned (itemInfo : IWebhookItem)
    (pluginConfig : CustomPluginOptions) (lang : string) (w : World)
    (node : Node) (els : list (string * KontentItemElement)) :
  is_absent (loadKontentItem env (item_id itemInfo) lang pluginConfig true)
  = true ->
  store_get (node_id_for env (item_id itemInfo) lang) (nodes w) = Some node ->
  node_elements node = Some els ->
  exists ids added,
    delete_language env itemInfo pluginConfig lang w
    = Returned ids
        {| nodes := store_without ids (nodes w);
           trace := trace w ++ Fetched (item_id itemInfo) lang :: added |}
    /\ In (node_id_for env (item_id itemInfo) lang) ids
    /\ added = map Deleted ids.
Proof.
  intros Hload Hnode Hels.
  rewrite (delete_language_removes _ _ _ _ _ _ _ Hload Hnode Hels). cbv zeta.
  destruct (store_get_In _ _ _ Hnode) as [_ Hid].
  do 2 eexists. split; [|split; [|reflexivity]].
  - f_equal. apply world_eq.
    + rewrite <- store_remove_all_is_without, store_remove_all_app.
      reflexivity.
    + now rewrite map_app.
  - apply in_or_app. right. left. exact Hid.
Qed.

(** X13: in the iteration for a language for which nothing resolves remotely
    and the node is stored, the ids the delete handler records are
    exactly the ids it removes: the store afterwards is the store before
    without the nodes of the returned ids, the id of (item, language) is
    among them, and the iteration emits one deletion per returned id. *)
Theorem delete_returns_what_it_removes (itemInfo : IWebhookItem)
    (pluginConfig : CustomPluginOptions) (lang : string) (w : World)
    (node : Node) (els : list (string * KontentItemElement)) :
  is_absent (loadKontentItem env (item_id itemInfo) lang pluginConfig true)
  = true ->
  store_get (node_id_for env (item_id itemInfo) lang) (nodes w) = Some node ->
  node_elements node = Some els ->
  exists ids w',
    delete_language env itemInfo pluginConfig lang w = Returned ids w'
    /\ In (node_id_for env (item_id itemInfo) lang) ids
    /\ nodes w' = store_without ids (nodes w)
    /\ trace w' = trace w ++ Fetched (item_id itemInfo) lang
                             :: map Deleted ids
    /\ forall i, In i (map id (nodes w'))
                 <-> In i (map id (nodes w)) /\ ~ In i ids.
Proof.
  intros Hload Hnode Hels.
  destruct (delete_language_removes_returned _ _ _ _ _ _ Hload Hnode Hels)
    as (ids & added & Hrun & Hin & ->).
  do 2 eexists. split; [exact Hrun|]. cbn [nodes trace].
  split; [exact Hin|]. split; [reflexivity|]. split; [reflexivity|].
  intros i. apply store_without_ids.
Qed.

(** X14: the delete handler is not repeatable: with one configured language
    for which nothing resolves remotely, the first handling of the event
    removes the stored node and returns, and handling the same event
    again throws, because the node is no longer stored. *)
Theorem second_delete_throws
    (webhookBody : Nullable IWebhookDeliveryResponse)
    (pluginConfig : CustomPluginOptions)
    (itemInfo : IWebhookItem) (rest : list IWebhookItem)
    (lang : string) (w : World)
    (node : Node) (els : list (string * KontentItemElement)) :
  body_items webhookBody = itemInfo :: rest ->
  includes (languageCodenames pluginConfig) (item_language itemInfo) = true ->
  languageCodenames pluginConfig = [lang] ->
  is_absent (loadKontentItem env (item_id itemInfo) lang pluginConfig true)
  = true ->
  store_get (node_id_for env (item_id itemInfo) lang) (nodes w) = Some node ->
  node_elements node = Some els ->
  exists ids w1,
    handleDeleteItem env webhookBody pluginConfig w = Returned ids w1
    /\ handleDeleteItem env webhookBody pluginConfig w1
       = Thrown (TypeError "elements")
           {| nodes := nodes w1;
              trace := trace w1 ++ [Fetched (item_id itemInfo) lang] |}.
Proof.
  intros Hitems Hlang Hlangs Hload Hnode Hels.
  destruct (delete_language_removes_returned _ _ _ _ _ _ Hload Hnode Hels)
    as (ids & added & Hrun & Hin & _).
  assert (Hunfold : forall w0,
             handleDeleteItem env webhookBody pluginConfig w0
             = for_of [lang] (delete_language env itemInfo pluginConfig) w0).
  { intros w0. unfold handleDeleteItem. unfold bind at 1.
    rewrite (first_item_run _ _ _ _ Hitems), Hlang, Hlangs. reflexivity. }
  do 2 eexists. split.
  - rewrite Hunfold. simpl. unfold bind at 1. rewrite Hrun.
    unfold bind, ret. reflexivity.
  - rewrite Hunfold. cbn [nodes trace].
    apply (for_of_throws_at _ [] lang [] _ _ _ [] _ eq_refl).
    apply delete_language_throws; [exact Hload|].
    cbn [nodes]. now apply store_get_without.
Qed.

(** *** The component marker *)

Lemma get_beyond (s : string) (n : nat) :
  String.length s <= n -> get n s = None.
Proof.
  revert n. induction s as [|c s IH]; intros n H; [reflexivity|].
  destruct n as [|n]; simpl in *; [lia|]. apply IH. lia.
Qed.

Lemma substring_marker (n : nat) (s : string) :
  substring n 2 s = "01"
  <-> get n s = Some "0"%char /\ get (S n) s = Some "1"%char.
Proof.
  revert s. induction n as [|n IH]; intros s.
  - destruct s as [|c1 [|c2 r]]; simpl.
    + split; [discriminate | intros [H _]; discriminate].
    + split; [discriminate | intros [_ H]; discriminate].
    + destruct r; simpl; split.
      * now intros [= -> ->].
      * now intros [[= ->] [= ->]].
      * now intros [= -> ->].
      * now intros [[= ->] [= ->]].
  - destruct s as [|c s]; [simpl; split; [discriminate | intros [H _]; discriminate]|].
    change (substring (S n) 2 (String c s)) with (substring n 2 s).
    change (get (S n) (String c s)) with (get n s).
    change (get (S (S n)) (String c s)) with (get (S n) s).
    apply IH.
Qed.

(** X15: [isContentComponent] throws for a node without [system]; otherwise
    it answers whether the characters at positions 14 and 15 of the item
    id are 0 and 1, so an id of fewer than 16 characters is never a
    component. *)
Theorem component_marker_positions (data : Node) (w : World) :
  match node_system data with
  | None => isContentComponent data w = Thrown (TypeError "substring") w
  | Some sys =>
      exists b,
        isContentComponent data w = Returned b w
        /\ (b = true <-> get 14 (sys_id sys) = Some "0"%char
                         /\ get 15 (sys_id sys) = Some "1"%char)
        /\ (String.length (sys_id sys) < 16 -> b = false)
  end.
Proof.
  unfold isContentComponent.
  destruct (node_system data) as [sys|]; [|reflexivity].
  exists (substring 14 2 (sys_id sys) =? "01").
  split; [reflexivity|]. split.
  - rewrite String.eqb_eq. apply substring_marker.
  - intros Hshort.
    destruct (String.eqb_spec (substring 14 2 (sys_id sys)) "01") as [E|E];
      [|reflexivity].
    apply substring_marker in E. destruct E as [_ E].
    rewrite get_beyond in E by lia. discriminate.
Qed.

(** *** An upsert from end to end *)


End FurtherFacts.

(** *** The further theorems at the concrete project *)

Module FurtherScenarioFacts.

Import Scenario.

Lemma foreign_event_changes_nothing_witness :
  let env := project remote_published in
  let pluginConfig := config ["en"; "cs"] in
  (opt_chain (opt_chain foreign_upsert message) project_id
     <> Value (projectId pluginConfig)
   \/ opt_chain (opt_chain foreign_upsert message) message_type
        <> Value "content_item_variant")
  /\ exists d,
       (d = NotFromKontent \/ d = NotHandledByPlugin)
       /\ handleIncomingWebhook env foreign_upsert pluginConfig item_types
                                empty_world
          = Returned tt {| nodes := nodes empty_world;
                           trace := trace empty_world ++ [Verbose d] |}.
Proof.
  intros env pluginConfig.
  assert (H : opt_chain (opt_chain foreign_upsert message) project_id
                <> Value (projectId pluginConfig)
              \/ opt_chain (opt_chain foreign_upsert message) message_type
                   <> Value "content_item_variant").
  { left. discriminate. }
  split; [exact H|].
  exact (foreign_event_changes_nothing
           env foreign_upsert pluginConfig item_types empty_world H).
Defined.

Lemma supported_event_runs_one_handler_witness :
  let env := project remote_published in
  let pluginConfig := config ["en"; "cs"] in
  let webhook := envelope "delivery_preview" (Value "upsert") [variant "en"] in
  parseKontentWebhookBody (Value webhook) = Value webhook
  /\ message webhook = Value preview_upsert
  /\ isKontentSupportedWebhook preview_upsert (projectId pluginConfig) = true
  /\ upsert_classified preview_upsert
     = negb (delete_classified preview_upsert)
  /\ handleIncomingWebhook env (Value webhook) pluginConfig item_types
                           empty_world
     = (announce webhook preview_upsert ;;;
        (if upsert_classified preview_upsert
         then handleUpsertItem env (Value webhook) pluginConfig
         else handleDeleteItem env (Value webhook) pluginConfig) ;;;
        touch_propagation env pluginConfig item_types []) empty_world.
Proof.
  intros env pluginConfig webhook.
  split; [reflexivity|]. split; [reflexivity|]. split; [reflexivity|].
  apply (supported_event_runs_one_handler
           env webhook preview_upsert pluginConfig item_types empty_world);
    reflexivity.
Defined.

Lemma no_touch_without_inclusion_witness :
  let env := project remote_published in
  let pluginConfig := config ["en"; "cs"] in
  includeTaxonomies pluginConfig = false
  /\ includeTypes pluginConfig = false
  /\ emits_only (fun e => ~ is_touch e)
       (handleIncomingWebhook env upsert_en pluginConfig item_types).
Proof.
  intros env pluginConfig.
  split; [reflexivity|]. split; [reflexivity|].
  apply (no_touch_without_inclusion env upsert_en pluginConfig item_types);
    reflexivity.
Defined.

Lemma handlers_use_only_first_item_witness :
  let env := project remote_published in
  let pluginConfig := config ["en"; "cs"] in
  body_items upsert_en = variant "en" :: []
  /\ body_items upsert_pair = variant "en" :: [variant "cs"]
  /\ handleUpsertItem env upsert_en pluginConfig empty_world
     = handleUpsertItem env upsert_pair pluginConfig empty_world
  /\ handleDeleteItem env upsert_en pluginConfig empty_world
     = handleDeleteItem env upsert_pair pluginConfig empty_world.
Proof.
  intros env pluginConfig.
  split; [reflexivity|]. split; [reflexivity|].
  apply (handlers_use_only_first_item
           env upsert_en upsert_pair pluginConfig (variant "en")
           [] [variant "cs"] empty_world);
    reflexivity.
Defined.

Lemma upsert_stores_what_it_returns_witness :
  let env := project remote_published in
  let pluginConfig := config ["en"; "cs"] in
  let itemInfo := variant "en" in
  let w := empty_world in
  body_items upsert_en = itemInfo :: []
  /\ includes (languageCodenames pluginConfig) (item_language itemInfo) = true
  /\ (forall i,
        In i (map id (nodes w)) ->
        In i (map id (nodes (final_world
                               (handleUpsertItem env upsert_en pluginConfig
                                                 w)))))
  /\ ((forall lang, In lang (languageCodenames pluginConfig) ->
         is_rejected (loadKontentItem env (item_id itemInfo) lang
                                      pluginConfig true) = false) ->
      exists ids w',
        handleUpsertItem env upsert_en pluginConfig w = Returned ids w'
        /\ (forall i, In i ids -> In i (map id (nodes w')))
        /\ (forall i, In i (map id (nodes w)) -> In i (map id (nodes w')))
        /\ forall lang kontentItem modularKontent,
             In lang (languageCodenames pluginConfig) ->
             loadKontentItem env (item_id itemInfo) lang pluginConfig true
             = Resolved (Some kontentItem, modularKontent) ->
             item_id itemInfo = Value (sys_id (system kontentItem)) ->
             In (node_id_for env (item_id itemInfo) lang) ids
             /\ exists n,
                  store_get (node_id_for env (item_id itemInfo) lang)
                            (nodes w') = Some n
                  /\ In n (upserted_nodes env pluginConfig (item_id itemInfo)
                                          (languageCodenames pluginConfig))).
Proof.
  intros env pluginConfig itemInfo w.
  split; [reflexivity|]. split; [reflexivity|].
  apply (upsert_stores_what_it_returns
           env upsert_en pluginConfig itemInfo [] w);
    reflexivity.
Defined.

Lemma upsert_of_unresolved_item_changes_nothing_witness :
  let env := project remote_gone in
  let pluginConfig := config ["en"; "cs"] in
  let itemInfo := variant "en" in
  body_items upsert_en = itemInfo :: []
  /\ includes (languageCodenames pluginConfig) (item_language itemInfo) = true
  /\ (forall lang, In lang (languageCodenames pluginConfig) ->
        is_absent (loadKontentItem env (item_id itemInfo) lang pluginConfig true)
        = true)
  /\ handleUpsertItem env upsert_en pluginConfig empty_world
     = Returned []
         {| nodes := nodes empty_world;
            trace := trace empty_world
                     ++ flat_map
                          (fun lang =>
                             [Fetched (item_id itemInfo) lang;
                              Verbose (VariantNotFoundForUpdate
                                         (item_id itemInfo) lang)])
                          (languageCodenames pluginConfig) |}.
Proof.
  intros env pluginConfig itemInfo.
  split; [reflexivity|]. split; [reflexivity|].
  split; [intros lang _; reflexivity|].
  apply (upsert_of_unresolved_item_changes_nothing
           env upsert_en pluginConfig itemInfo [] empty_world);
    reflexivity.
Defined.

Lemma published_everywhere (lang : string) :
  In lang (languageCodenames (config ["en"; "cs"])) ->
  is_absent (loadKontentItem (project remote_published)
                             (item_id (variant "en"))
                             lang (config ["en"; "cs"]) true) = false.
Proof.
  intros [<-|[<-|[]]]; reflexivity.
Defined.

Lemma delete_with_fallbacks_is_upsert_witness :
  let env := project remote_published in
  let pluginConfig := config ["en"; "cs"] in
  body_items archive_en = variant "en" :: []
  /\ (forall lang, In lang (languageCodenames pluginConfig) ->
        is_absent (loadKontentItem env (item_id (variant "en")) lang
                                   pluginConfig true) = false)
  /\ handleDeleteItem env archive_en pluginConfig empty_world
     = handleUpsertItem env archive_en pluginConfig empty_world.
Proof.
  intros env pluginConfig.
  split; [reflexivity|]. split; [exact published_everywhere|].
  apply (delete_with_fallbacks_is_upsert
           env archive_en pluginConfig (variant "en") [] empty_world);
    [reflexivity | exact published_everywhere].
Defined.

Lemma delete_returns_what_it_removes_witness :
  let env := project remote_gone in
  let pluginConfig := config ["en"] in
  let itemInfo := variant "en" in
  let node := stored "en" (article "en") in
  let w := english_world in
  is_absent (loadKontentItem env (item_id itemInfo) "en" pluginConfig true) = true
  /\ store_get (node_id_for env (item_id itemInfo) "en") (nodes w) = Some node
  /\ node_elements node = Some (elements (article "en"))
  /\ exists ids w',
       delete_language env itemInfo pluginConfig "en" w = Returned ids w'
       /\ In (node_id_for env (item_id itemInfo) "en") ids
       /\ nodes w' = store_without ids (nodes w)
       /\ trace w' = trace w ++ Fetched (item_id itemInfo) "en"
                                :: map Deleted ids
       /\ forall i, In i (map id (nodes w'))
                    <-> In i (map id (nodes w)) /\ ~ In i ids.
Proof.
  intros env pluginConfig itemInfo node w.
  split; [reflexivity|]. split; [reflexivity|]. split; [reflexivity|].
  apply (delete_returns_what_it_removes
           env itemInfo pluginConfig "en" w node (elements (article "en")));
    reflexivity.
Defined.

Lemma second_delete_throws_witness :
  let env := project remote_gone in
  let pluginConfig := config ["en"] in
  let itemInfo := variant "en" in
  let node := stored "en" (article "en") in
  let w := english_world in
  body_items archive_en = itemInfo :: []
  /\ includes (languageCodenames pluginConfig) (item_language itemInfo) = true
  /\ languageCodenames pluginConfig = ["en"]
  /\ is_absent (loadKontentItem env (item_id itemInfo) "en" pluginConfig true) = true
  /\ store_get (node_id_for env (item_id itemInfo) "en") (nodes w) = Some node
  /\ node_elements node = Some (elements (article "en"))
  /\ exists ids w1,
       handleDeleteItem env archive_en pluginConfig w = Returned ids w1
       /\ handleDeleteItem env archive_en pluginConfig w1
          = Thrown (TypeError "elements")
              {| nodes := nodes w1;
                 trace := trace w1 ++ [Fetched (item_id itemInfo) "en"] |}.
Proof.
  intros env pluginConfig itemInfo node w.
  repeat (split; [reflexivity|]).
  apply (second_delete_throws
           env archive_en pluginConfig itemInfo [] "en" w node
           (elements (article "en")));
    reflexivity.
Defined.


End FurtherScenarioFacts.
